(** * Rule L036 of sqlfluff: layout of the select targets of a select clause

    Shallow embedding of [src/sqlfluff/core/rules/std/L036.py] and the
    properties of its landmark scan ([_get_indexes]) and of its two decision
    paths ([_eval_single_select_target_element],
    [_eval_multiple_select_target_elements]).

    Python integers are [Z]; the index fields of the scan use the source's
    sentinel [-1] for "not seen yet".  Python's [None] result is [None],
    a [LintResult] is [Some _], and a subscript that would raise is
    [Raise IndexError]. *)

From Stdlib Require Import String Ascii ZArith List Bool Lia.
Import ListNotations.

Set Warnings "-register-all,-notation-for-abbreviation".

Open Scope string_scope.
Open Scope list_scope.
Open Scope Z_scope.

(** ** Exceptions of the subscript operator *)

Inductive exn : Type := IndexError.

Inductive res (A : Type) : Type :=
| Ok (a : A)
| Raise (e : exn).

Arguments Ok {A} a.
Arguments Raise {A} e.

Definition bind {A B : Type} (m : res A) (k : A -> res B) : res B :=
  match m with
  | Ok a => k a
  | Raise e => Raise e
  end.

Notation "x <- m ;; k" := (bind m (fun x => k))
  (at level 61, m at next level, right associativity).

(** Python's [l[i]]: a negative subscript counts from the end, and a
    subscript outside [-len l .. len l - 1] raises [IndexError]. *)
Definition py_getitem {A : Type} (l : list A) (i : Z) : res A :=
  let n := Z.of_nat (length l) in
  let j := if i <? 0 then i + n else i in
  if (j <? 0) || (n <=? j) then Raise IndexError
  else match nth_error l (Z.to_nat j) with
       | Some x => Ok x
       | None => Raise IndexError
       end.

(** Python's [enumerate]. *)
Definition enumerate {A : Type} (l : list A) : list (Z * A) :=
  combine (map Z.of_nat (seq 0 (length l))) l.

(** ** Vocabulary used to state the properties *)

(** Position of the first element satisfying [P], if any. *)
Fixpoint first_index {A : Type} (P : A -> bool) (l : list A) : option nat :=
  match l with
  | [] => None
  | x :: r => if P x then Some 0%nat else option_map S (first_index P r)
  end.

(** [z] is the index of the first position of [l] satisfying [Q], or the
    sentinel [-1] when no position does. *)
Definition first_at {A : Type} (Q : nat -> A -> Prop) (l : list A) (z : Z)
  : Prop :=
  (z = -1 /\ forall n x, nth_error l n = Some x -> ~ Q n x)
  \/ (exists n x, z = Z.of_nat n /\ nth_error l n = Some x /\ Q n x
        /\ forall m y, (m < n)%nat -> nth_error l m = Some y -> ~ Q m y).

(** Removing the element at position [n]; inserting [x] before position [n]. *)
Definition delete_at {A : Type} (n : nat) (l : list A) : list A :=
  firstn n l ++ skipn (S n) l.

Definition insert_before {A : Type} (n : nat) (x : A) (l : list A) : list A :=
  firstn n l ++ x :: skipn n l.

(** The value an index field of the summary takes for a position, or for
    no position (the source's sentinel). *)
Definition idx_or_absent (o : option nat) : Z :=
  match o with
  | Some n => Z.of_nat n
  | None => -1
  end.

(** A sample position marker for the examples: a character offset, advanced
    by the length of the text. *)
Definition offset_advance_by (p : Z) (s : string) : Z :=
  p + Z.of_nat (String.length s).

Section L036.

(** The position marker of the parse framework and its [advance_by] are not
    part of the rule's file: they are parameters of the development. *)
Variable PosMarker : Type.
Variable advance_by : PosMarker -> string -> PosMarker.

(** Modelled from the spec: the node abstraction of the parse framework
    ([BaseSegment], not under src/): a kind tag, an optional name, the
    ordered children, the raw source text and a position marker. *)
Inductive BaseSegment : Type :=
  mkSegment {
    seg_type : string;
    name : option string;
    segments : list BaseSegment;
    raw : string;
    pos_marker : PosMarker
  }.

(** Modelled from the spec: [is_type] is the kind tag lookup of a node. *)
Definition is_type (seg : BaseSegment) (t : string) : bool :=
  String.eqb (seg_type seg) t.

(** [seg.name == "SELECT"]. *)
Definition name_eq (seg : BaseSegment) (s : string) : bool :=
  match name seg with
  | Some n => String.eqb n s
  | None => false
  end.

(** Modelled from the spec: an edit action ([LintFix], not under src/), built
    as [LintFix(edit_type, anchor, edit)] with [edit] optional. *)
Record LintFix : Type :=
  mkLintFix {
    edit_type : string;
    fix_anchor : BaseSegment;
    edit : option BaseSegment
  }.

(** Modelled from the spec: a violation ([LintResult], not under src/). *)
Record LintResult : Type :=
  mkLintResult {
    anchor : BaseSegment;
    fixes : list LintFix
  }.

(** Modelled from the spec: [make_newline] of the rule base class (not under
    src/) returns a fully constructed new node of kind [newline] at the
    given position. *)
Definition make_newline (pm : PosMarker) : BaseSegment :=
  mkSegment "newline" (Some "newline") []
            (String (ascii_of_nat 10) EmptyString) pm.

(** ** The landmark summary *)

Record EvalResult : Type :=
  mkEvalResult {
    cnt_select_targets : Z;
    select_idx : Z;
    first_new_line_idx : Z;
    first_select_target_idx : Z;
    first_whitespace_idx : Z;
    select_targets : list BaseSegment
  }.

(** The state of [_get_indexes] before its loop. *)
Definition scan_init : EvalResult :=
  mkEvalResult 0 (-1) (-1) (-1) (-1) [].

(** One iteration of the loop of [_get_indexes]: four independent [if]
    statements, run in sequence on the child [seg] at index [fname_idx]. *)
Definition scan_step (st : EvalResult) (item : Z * BaseSegment) : EvalResult :=
  let '(fname_idx, seg) := item in
  let st1 :=
    if is_type seg "select_target_element" then
      mkEvalResult
        (cnt_select_targets st + 1)
        (select_idx st)
        (first_new_line_idx st)
        (if first_select_target_idx st =? -1 then fname_idx
         else first_select_target_idx st)
        (first_whitespace_idx st)
        (select_targets st ++ [seg])
    else st in
  let st2 :=
    if is_type seg "keyword" && name_eq seg "SELECT" && (select_idx st1 =? -1)
    then
      mkEvalResult (cnt_select_targets st1) fname_idx (first_new_line_idx st1)
        (first_select_target_idx st1) (first_whitespace_idx st1)
        (select_targets st1)
    else st1 in
  let st3 :=
    if is_type seg "newline" && (first_new_line_idx st2 =? -1) then
      mkEvalResult (cnt_select_targets st2) (select_idx st2) fname_idx
        (first_select_target_idx st2) (first_whitespace_idx st2)
        (select_targets st2)
    else st2 in
  if is_type seg "whitespace"
     && negb (first_new_line_idx st3 =? -1)
     && (first_whitespace_idx st3 =? -1)
  then
    mkEvalResult (cnt_select_targets st3) (select_idx st3)
      (first_new_line_idx st3) (first_select_target_idx st3) fname_idx
      (select_targets st3)
  else st3.

Definition _get_indexes (segment : BaseSegment) : EvalResult :=
  fold_left scan_step (enumerate (segments segment)) scan_init.

(** ** The decision paths *)

Definition _eval_multiple_select_target_elements
    (eval_result : EvalResult) (segment : BaseSegment)
  : res (option LintResult) :=
  if first_new_line_idx eval_result =? -1 then
    let ins := make_newline (advance_by (pos_marker segment) (raw segment)) in
    target0 <- py_getitem (select_targets eval_result) 0 ;;
    Ok (Some (mkLintResult segment [mkLintFix "create" target0 (Some ins)]))
  else Ok None.

(** The wildcard loop at the head of [_eval_single_select_target_element]:
    the flag is set by any child of any select target of the clause. *)
Definition wildcard_scan (select_clause : BaseSegment) : bool :=
  fold_left
    (fun is_wildcard segment =>
       if is_type segment "select_target_element" then
         fold_left
           (fun is_wildcard sub_segment =>
              if is_type sub_segment "wildcard_expression" then true
              else is_wildcard)
           (segments segment) is_wildcard
       else is_wildcard)
    (segments select_clause) false.

Definition _eval_single_select_target_element
    (eval_result : EvalResult) (select_clause : BaseSegment)
  : res (option LintResult) :=
  let is_wildcard := wildcard_scan select_clause in
  if is_wildcard then Ok None
  else if (select_idx eval_result <? first_new_line_idx eval_result)
          && (first_new_line_idx eval_result
              <? first_select_target_idx eval_result)
  then
    nl <- py_getitem (segments select_clause)
                     (first_new_line_idx eval_result) ;;
    Ok (Some (mkLintResult select_clause [mkLintFix "delete" nl None]))
  else Ok None.

Definition _eval (segment : BaseSegment) (raw_stack : list BaseSegment)
  : res (option LintResult) :=
  if is_type segment "select_clause" then
    let eval_result := _get_indexes segment in
    if cnt_select_targets eval_result =? 1 then
      _eval_single_select_target_element eval_result segment
    else if cnt_select_targets eval_result >? 1 then
      _eval_multiple_select_target_elements eval_result segment
    else Ok None
  else Ok None.

(** ** Vocabulary of the properties: kinds of children *)

Definition is_select_target (seg : BaseSegment) : bool :=
  is_type seg "select_target_element".

Definition is_select_keyword (seg : BaseSegment) : bool :=
  is_type seg "keyword" && name_eq seg "SELECT".

Definition is_newline (seg : BaseSegment) : bool := is_type seg "newline".

Definition is_whitespace (seg : BaseSegment) : bool :=
  is_type seg "whitespace".

Definition is_wildcard_expression (seg : BaseSegment) : bool :=
  is_type seg "wildcard_expression".

(** Some direct child of the node is a wildcard expression. *)
Definition has_wildcard_child (seg : BaseSegment) : bool :=
  existsb is_wildcard_expression (segments seg).

(** Some select target of the clause has a direct wildcard child. *)
Definition wildcard_target (select_clause : BaseSegment) : bool :=
  existsb (fun t => is_select_target t && has_wildcard_child t)
          (segments select_clause).

(** Some node strictly below [seg], at any depth, is a wildcard
    expression. *)
Fixpoint wildcard_below (seg : BaseSegment) : bool :=
  match seg with
  | mkSegment _ _ children _ _ =>
      existsb (fun s => is_wildcard_expression s || wildcard_below s) children
  end.

(** Some select target of the clause has a wildcard expression deeper than
    one level below it: below one of the target's children. *)
Definition deep_wildcard_target (select_clause : BaseSegment) : bool :=
  existsb (fun t => is_select_target t
                    && existsb wildcard_below (segments t))
          (segments select_clause).

(** The child at position [n] is a whitespace that comes after a newline
    child of the same list. *)
Definition whitespace_after_newline (l : list BaseSegment)
    (n : nat) (x : BaseSegment) : Prop :=
  is_whitespace x = true
  /\ exists m y, (m < n)%nat /\ nth_error l m = Some y /\ is_newline y = true.

(** Two summaries that agree on every field but [first_whitespace_idx]. *)
Definition agree_except_whitespace (e1 e2 : EvalResult) : Prop :=
  cnt_select_targets e1 = cnt_select_targets e2
  /\ select_idx e1 = select_idx e2
  /\ first_new_line_idx e1 = first_new_line_idx e2
  /\ first_select_target_idx e1 = first_select_target_idx e2
  /\ select_targets e1 = select_targets e2.

(** The three outcomes of the rule, read relative to the clause they are
    reported on: nothing, the deletion of the child at an index, or the
    insertion of a new newline before a node. *)
Inductive Verdict : Type :=
| NoIssue
| DeleteChild (idx : Z)
| InsertNewlineBefore (target : BaseSegment).

Definition outcome_is (clause : BaseSegment)
    (o : res (option LintResult)) (v : Verdict) : Prop :=
  match v with
  | NoIssue => o = Ok None
  | DeleteChild idx =>
      exists nl, py_getitem (segments clause) idx = Ok nl
        /\ o = Ok (Some (mkLintResult clause [mkLintFix "delete" nl None]))
  | InsertNewlineBefore target =>
      o = Ok (Some (mkLintResult clause
             [mkLintFix "create" target
                (Some (make_newline
                         (advance_by (pos_marker clause) (raw clause))))]))
  end.

(** ** Sample nodes *)

Definition leaf (kind : string) (nm : option string) (text : string)
    (pm : PosMarker) : BaseSegment :=
  mkSegment kind nm [] text pm.

Definition kw_select : PosMarker -> BaseSegment :=
  leaf "keyword" (Some "SELECT") "select".

Definition nl_seg : PosMarker -> BaseSegment :=
  leaf "newline" (Some "newline") (String (ascii_of_nat 10) EmptyString).

Definition ws_seg : PosMarker -> BaseSegment :=
  leaf "whitespace" (Some "whitespace") " ".

Definition comma_seg : PosMarker -> BaseSegment :=
  leaf "comma" (Some "comma") ",".

(** A select target holding one column reference. *)
Definition target_col (text : string) (pm : PosMarker) : BaseSegment :=
  mkSegment "select_target_element" None
            [leaf "column_reference" None text pm] text pm.

(** The select target made of a lone star. *)
Definition target_star (pm : PosMarker) : BaseSegment :=
  mkSegment "select_target_element" None
            [leaf "wildcard_expression" None "*" pm] "*" pm.

(** The select target counting all rows: a function call whose argument is
    the star, so that the wildcard sits below a function node. *)
Definition target_count_star (pm : PosMarker) : BaseSegment :=
  let text := String.append "count(" (String.append "*" ")") in
  mkSegment "select_target_element" None
    [mkSegment "function" None
       [leaf "function_name" None "count" pm;
        leaf "wildcard_expression" None "*" pm] text pm]
    text pm.

(** Lays the builders [bs] out one after the other from the position [pm]. *)
Fixpoint lay_out (bs : list (PosMarker -> BaseSegment)) (pm : PosMarker)
  : list BaseSegment :=
  match bs with
  | [] => []
  | b :: r => b pm :: lay_out r (advance_by pm (raw (b pm)))
  end.

(** A select clause at [pm] with the children built by [bs]. *)
Definition clause_of (bs : list (PosMarker -> BaseSegment)) (pm : PosMarker)
  : BaseSegment :=
  let children := lay_out bs pm in
  mkSegment "select_clause" None children
            (String.concat EmptyString (map raw children)) pm.

(** The clause once its child list has been rewritten to [l]. *)
Definition with_segments (clause : BaseSegment) (l : list BaseSegment)
  : BaseSegment :=
  mkSegment (seg_type clause) (name clause) l
            (String.concat EmptyString (map raw l)) (pos_marker clause).

(** The five scenarios of the specification. *)
Definition scenario_A : PosMarker -> BaseSegment :=
  clause_of [kw_select; ws_seg; target_col "a"].

Definition scenario_B : PosMarker -> BaseSegment :=
  clause_of [kw_select; nl_seg; target_star].

Definition scenario_C : PosMarker -> BaseSegment :=
  clause_of [kw_select; nl_seg; target_col "a"].

Definition scenario_D : PosMarker -> BaseSegment :=
  clause_of [kw_select; ws_seg; target_col "a"; comma_seg; target_col "b"].

Definition scenario_E : PosMarker -> BaseSegment :=
  clause_of [kw_select; nl_seg; target_col "a"; comma_seg; nl_seg;
             target_col "b"].

(** A clause whose SELECT keyword is missing. *)
Definition clause_without_keyword : PosMarker -> BaseSegment :=
  clause_of [nl_seg; target_col "a"].

(** A blank line between the keyword and the lone target. *)
Definition clause_blank_line : PosMarker -> BaseSegment :=
  clause_of [kw_select; nl_seg; nl_seg; target_col "a"].

(** A lone target whose wildcard is the argument of a function call. *)
Definition clause_count_star : PosMarker -> BaseSegment :=
  clause_of [kw_select; nl_seg; target_count_star].

(** A clause without any select target. *)
Definition clause_no_target : PosMarker -> BaseSegment :=
  clause_of [kw_select; ws_seg].

(** Two clauses that differ in one child only, a whitespace or a comma. *)
Definition clause_indented : PosMarker -> BaseSegment :=
  clause_of [kw_select; nl_seg; ws_seg; target_col "a"].

Definition clause_comma : PosMarker -> BaseSegment :=
  clause_of [kw_select; nl_seg; comma_seg; target_col "a"].

(** The numeric fields of a summary. *)
Definition landmarks (e : EvalResult) : Z * Z * Z * Z * Z :=
  (cnt_select_targets e, select_idx e, first_new_line_idx e,
   first_select_target_idx e, first_whitespace_idx e).

(** What the scanner reads of a child: its kind and its name. *)
Definition child_view (seg : BaseSegment) : string * option string :=
  (seg_type seg, name seg).

(** The index of a child once a new child has been put before position
    [p]; the absent value stays absent. *)
Definition shifted (p : nat) (z : Z) : Z :=
  if z <? Z.of_nat p then z else z + 1.

(** Modelled from the spec: the fix-application framework is not under src/.
    One round of it on a clause, as the rule's fixes name their nodes: the
    node of a delete fix, the child at [first_new_line_idx], is removed from
    the child list; the node of a create fix is put before its anchor, the
    child at [first_select_target_idx].  A clause without violation is left
    as it is. *)
Definition rewrite_once (clause : BaseSegment) : BaseSegment :=
  match _eval clause [] with
  | Ok (Some r) =>
      match fixes r with
      | f :: _ =>
          if String.eqb (edit_type f) "delete" then
            with_segments clause
              (delete_at (Z.to_nat (first_new_line_idx (_get_indexes clause)))
                         (segments clause))
          else
            match edit f with
            | Some ins =>
                with_segments clause
                  (insert_before
                     (Z.to_nat (first_select_target_idx
                                  (_get_indexes clause)))
                     ins (segments clause))
            | None => clause
            end
      | [] => clause
      end
  | _ => clause
  end.

(** A lone target followed by a newline. *)
Definition clause_trailing_newline : PosMarker -> BaseSegment :=
  clause_of [kw_select; ws_seg; target_col "a"; nl_seg].

(** ** Subscripts and enumeration *)

Lemma py_getitem_nth {A : Type} (l : list A) (n : nat) (x : A) :
  nth_error l n = Some x -> py_getitem l (Z.of_nat n) = Ok x.
Proof.
  intros H. unfold py_getitem.
  assert (Hn : (n < length l)%nat) by (apply nth_error_Some; congruence).
  cbv zeta.
  destruct (Z.ltb_spec (Z.of_nat n) 0) as [Hlt|_]; [lia|].
  destruct (Z.ltb_spec (Z.of_nat n) 0) as [Hlt|_]; [lia|].
  destruct (Z.leb_spec (Z.of_nat (length l)) (Z.of_nat n)) as [Hle|_]; [lia|].
  cbn [orb]. rewrite Nat2Z.id, H. reflexivity.
Qed.

Lemma combine_seq_snoc {A : Type} (l : list A) (x : A) (s : nat) :
  combine (map Z.of_nat (seq s (length (l ++ [x])))) (l ++ [x])
  = combine (map Z.of_nat (seq s (length l))) l
      ++ [(Z.of_nat (s + length l), x)].
Proof.
  revert s. induction l as [|y l IH]; intros s; cbn.
  - now rewrite Nat.add_0_r.
  - rewrite IH. now rewrite Nat.add_succ_r.
Qed.

Lemma enumerate_snoc {A : Type} (l : list A) (x : A) :
  enumerate (l ++ [x]) = enumerate l ++ [(Z.of_nat (length l), x)].
Proof. unfold enumerate. now rewrite combine_seq_snoc. Qed.

(** ** First positions *)

Lemma first_index_app {A : Type} (P : A -> bool) (a b : list A) :
  first_index P (a ++ b)
  = match first_index P a with
    | Some n => Some n
    | None => option_map (Nat.add (length a)) (first_index P b)
    end.
Proof.
  induction a as [|x a IH]; cbn.
  - now destruct (first_index P b).
  - destruct (P x); [reflexivity|]. rewrite IH.
    destruct (first_index P a); [reflexivity|].
    now destruct (first_index P b).
Qed.

Lemma first_index_None {A : Type} (P : A -> bool) (l : list A) :
  first_index P l = None <-> forall x, In x l -> P x = false.
Proof.
  induction l as [|y l IH]; cbn.
  - split; [intros _ x []|reflexivity].
  - destruct (P y) eqn:Py.
    + split; [discriminate|]. intros H. specialize (H y (or_introl eq_refl)).
      congruence.
    + destruct (first_index P l) eqn:E; cbn.
      * split; [discriminate|]. intros H.
        assert (Some n = None) by (apply IH; intros x Hx; apply H; now right).
        discriminate.
      * split; [|reflexivity]. intros _ x [<-|Hx]; [assumption|].
        now apply IH.
Qed.

Lemma first_index_Some {A : Type} (P : A -> bool) (l : list A) (n : nat) :
  first_index P l = Some n <->
  exists a x b, l = a ++ x :: b /\ length a = n /\ P x = true
                /\ first_index P a = None.
Proof.
  split.
  - revert n. induction l as [|y l IH]; intros n; cbn; [discriminate|].
    destruct (P y) eqn:Py.
    + intros [= <-]. now exists [], y, l.
    + destruct (first_index P l) as [k|] eqn:E; cbn; [|discriminate].
      intros [= <-]. destruct (IH k eq_refl) as (a & x & b & -> & <- & Px & Ha).
      exists (y :: a), x, b. cbn. rewrite Py, Ha. auto.
  - intros (a & x & b & -> & <- & Px & Ha).
    rewrite first_index_app, Ha. cbn. rewrite Px. cbn.
    now rewrite Nat.add_0_r.
Qed.

Lemma nth_error_middle {A : Type} (a b : list A) (x : A) :
  nth_error (a ++ x :: b) (length a) = Some x.
Proof.
  rewrite nth_error_app2 by lia. now rewrite Nat.sub_diag.
Qed.

(** [first_index] computes the position that [first_at] describes. *)
Lemma first_index_first_at {A : Type} (P : A -> bool) (l : list A) :
  first_at (fun _ x => P x = true) l (idx_or_absent (first_index P l)).
Proof.
  destruct (first_index P l) as [n|] eqn:E; cbn.
  - right. apply first_index_Some in E.
    destruct E as (a & x & b & -> & <- & Px & Ha).
    exists (length a), x. split; [reflexivity|].
    split; [apply nth_error_middle|]. split; [assumption|].
    intros m y Hm Hy. rewrite nth_error_app1 in Hy by assumption.
    apply nth_error_In in Hy.
    rewrite (proj1 (first_index_None P a) Ha y Hy). discriminate.
  - left. split; [reflexivity|]. intros n x Hx.
    apply nth_error_In in Hx.
    rewrite (proj1 (first_index_None P l) E x Hx). discriminate.
Qed.

(** ** The loop of [_get_indexes], field by field *)

Local Notation scan l := (fold_left scan_step (enumerate l) scan_init).

Ltac scan_fields :=
  cbn [cnt_select_targets select_idx first_new_line_idx
       first_select_target_idx first_whitespace_idx select_targets
       andb negb].

(** Case analysis on the innermost test of a conditional of the goal. *)
Ltac split_if :=
  match goal with
  | |- context [if ?b then _ else _] =>
      lazymatch b with
      | context [if _ then _ else _] => fail
      | _ => destruct b eqn:?
      end
  end.

Ltac scan_step_cases st i seg :=
  unfold scan_step, is_select_target, is_select_keyword, is_newline,
    is_whitespace;
  destruct st as [c k n t w ts]; scan_fields;
  repeat (split_if; scan_fields);
  try reflexivity; try congruence.

Lemma scan_step_cnt (st : EvalResult) (i : Z) (seg : BaseSegment) :
  cnt_select_targets (scan_step st (i, seg))
  = if is_select_target seg then cnt_select_targets st + 1
    else cnt_select_targets st.
Proof. scan_step_cases st i seg. Qed.

Lemma scan_step_targets (st : EvalResult) (i : Z) (seg : BaseSegment) :
  select_targets (scan_step st (i, seg))
  = if is_select_target seg then select_targets st ++ [seg]
    else select_targets st.
Proof. scan_step_cases st i seg. Qed.

Lemma scan_step_target_idx (st : EvalResult) (i : Z) (seg : BaseSegment) :
  first_select_target_idx (scan_step st (i, seg))
  = if is_select_target seg && (first_select_target_idx st =? -1) then i
    else first_select_target_idx st.
Proof. scan_step_cases st i seg. Qed.

Lemma scan_step_select_idx (st : EvalResult) (i : Z) (seg : BaseSegment) :
  select_idx (scan_step st (i, seg))
  = if is_select_keyword seg && (select_idx st =? -1) then i
    else select_idx st.
Proof. scan_step_cases st i seg. Qed.

Lemma scan_step_new_line_idx (st : EvalResult) (i : Z) (seg : BaseSegment) :
  first_new_line_idx (scan_step st (i, seg))
  = if is_newline seg && (first_new_line_idx st =? -1) then i
    else first_new_line_idx st.
Proof. scan_step_cases st i seg. Qed.

Lemma scan_step_whitespace_idx (st : EvalResult) (i : Z) (seg : BaseSegment) :
  first_whitespace_idx (scan_step st (i, seg))
  = if is_whitespace seg
       && negb (first_new_line_idx (scan_step st (i, seg)) =? -1)
       && (first_whitespace_idx st =? -1)
    then i else first_whitespace_idx st.
Proof. scan_step_cases st i seg. Qed.

Lemma scan_snoc (l : list BaseSegment) (x : BaseSegment) :
  scan (l ++ [x]) = scan_step (scan l) (Z.of_nat (length l), x).
Proof. now rewrite enumerate_snoc, fold_left_app. Qed.

Lemma idx_first_index_snoc {A : Type} (P : A -> bool) (l : list A) (x : A) :
  idx_or_absent (first_index P (l ++ [x]))
  = if P x && (idx_or_absent (first_index P l) =? -1) then Z.of_nat (length l)
    else idx_or_absent (first_index P l).
Proof.
  rewrite first_index_app. destruct (first_index P l) as [n|]; cbn.
  - destruct (Z.eqb_spec (Z.of_nat n) (-1)); [lia|]. now rewrite andb_false_r.
  - destruct (P x); cbn; [|reflexivity]. now rewrite Nat.add_0_r.
Qed.

Lemma scan_cnt (l : list BaseSegment) :
  cnt_select_targets (scan l) = Z.of_nat (length (filter is_select_target l)).
Proof.
  induction l as [|x l IH] using rev_ind; [reflexivity|].
  rewrite scan_snoc, scan_step_cnt, filter_app, length_app, IH. cbn.
  destruct (is_select_target x); cbn; lia.
Qed.

Lemma scan_targets (l : list BaseSegment) :
  select_targets (scan l) = filter is_select_target l.
Proof.
  induction l as [|x l IH] using rev_ind; [reflexivity|].
  rewrite scan_snoc, scan_step_targets, filter_app, IH. cbn.
  destruct (is_select_target x); [reflexivity|]. now rewrite app_nil_r.
Qed.

Lemma scan_target_idx (l : list BaseSegment) :
  first_select_target_idx (scan l)
  = idx_or_absent (first_index is_select_target l).
Proof.
  induction l as [|x l IH] using rev_ind; [reflexivity|].
  now rewrite scan_snoc, scan_step_target_idx, idx_first_index_snoc, IH.
Qed.

Lemma scan_select_idx (l : list BaseSegment) :
  select_idx (scan l) = idx_or_absent (first_index is_select_keyword l).
Proof.
  induction l as [|x l IH] using rev_ind; [reflexivity|].
  now rewrite scan_snoc, scan_step_select_idx, idx_first_index_snoc, IH.
Qed.

Lemma scan_new_line_idx (l : list BaseSegment) :
  first_new_line_idx (scan l) = idx_or_absent (first_index is_newline l).
Proof.
  induction l as [|x l IH] using rev_ind; [reflexivity|].
  now rewrite scan_snoc, scan_step_new_line_idx, idx_first_index_snoc, IH.
Qed.

Lemma nth_error_snoc_inv {A : Type} (l : list A) (x y : A) (n : nat) :
  nth_error (l ++ [x]) n = Some y ->
  ((n < length l)%nat /\ nth_error l n = Some y)
  \/ (n = length l /\ y = x).
Proof.
  intros H. destruct (Nat.lt_ge_cases n (length l)) as [Hlt|Hge].
  - left. now rewrite nth_error_app1 in H.
  - right. rewrite nth_error_app2 in H by assumption.
    destruct (n - length l)%nat as [|k] eqn:E; cbn in H.
    + injection H as <-. split; [lia|reflexivity].
    + now destruct k.
Qed.

(** A node has one kind: a whitespace is not a newline. *)
Lemma whitespace_not_newline (seg : BaseSegment) :
  is_whitespace seg = true -> is_newline seg = false.
Proof.
  unfold is_whitespace, is_newline, is_type. intros H.
  apply String.eqb_eq in H. now rewrite H.
Qed.

Lemma newline_not_target (seg : BaseSegment) :
  is_newline seg = true -> is_select_target seg = false.
Proof.
  unfold is_select_target, is_newline, is_type. intros H.
  apply String.eqb_eq in H. now rewrite H.
Qed.

Lemma whitespace_after_newline_app (l r : list BaseSegment) (n : nat)
    (y : BaseSegment) :
  (n < length l)%nat ->
  whitespace_after_newline (l ++ r) n y <-> whitespace_after_newline l n y.
Proof.
  intros Hn. unfold whitespace_after_newline.
  split; intros [Hw (m & z & Hm & Hz & Hnl)]; (split; [assumption|]);
    exists m, z; (split; [assumption|]); (split; [|assumption]).
  - now rewrite nth_error_app1 in Hz by lia.
  - now rewrite nth_error_app1 by lia.
Qed.

Lemma scan_whitespace_idx (l : list BaseSegment) :
  first_at (whitespace_after_newline l) l (first_whitespace_idx (scan l)).
Proof.
  induction l as [|x l IH] using rev_ind.
  - left. split; [reflexivity|]. intros n y H. now rewrite nth_error_nil in H.
  - rewrite scan_snoc, scan_step_whitespace_idx, <- scan_snoc,
      scan_new_line_idx.
    destruct IH as [[Hw Hnone]|(n & y & Hw & Hy & HQ & Hmin)].
    + rewrite Hw. cbn [Z.eqb Pos.eqb]. rewrite andb_true_r.
      assert (Hold : forall m z, (m < length l)%nat ->
                nth_error (l ++ [x]) m = Some z ->
                ~ whitespace_after_newline (l ++ [x]) m z).
      { intros m z Hm Hz HQ. rewrite nth_error_app1 in Hz by assumption.
        apply (proj1 (whitespace_after_newline_app l [x] m z Hm)) in HQ.
        exact (Hnone m z Hz HQ). }
      destruct (is_whitespace x) eqn:Wx;
        destruct (first_index is_newline (l ++ [x])) as [m|] eqn:E; cbn.
      * replace (Z.of_nat m =? -1) with false
          by (symmetry; apply Z.eqb_neq; lia).
        right. exists (length l), x. split; [reflexivity|].
        split; [apply nth_error_middle|]. split; [|exact Hold].
        split; [assumption|].
        apply first_index_Some in E.
        destruct E as (a & z & b & Heq & <- & Hz & _).
        assert (Hnth : nth_error (l ++ [x]) (length a) = Some z)
          by (rewrite Heq; apply nth_error_middle).
        destruct (nth_error_snoc_inv _ _ _ _ Hnth) as [[Hlt _]|[_ ->]].
        -- now exists (length a), z.
        -- rewrite (whitespace_not_newline _ Wx) in Hz. discriminate.
      * left. split; [reflexivity|]. intros n y Hy [_ (m & z & _ & Hz & Hnl)].
        apply nth_error_In in Hz.
        rewrite (proj1 (first_index_None _ _) E z Hz) in Hnl. discriminate.
      * left. split; [reflexivity|]. intros n y Hy HQ.
        destruct (nth_error_snoc_inv _ _ _ _ Hy) as [[Hlt _]|[_ ->]].
        -- exact (Hold n y Hlt Hy HQ).
        -- destruct HQ as [HQ _]. congruence.
      * left. split; [reflexivity|]. intros n y Hy HQ.
        destruct (nth_error_snoc_inv _ _ _ _ Hy) as [[Hlt _]|[_ ->]].
        -- exact (Hold n y Hlt Hy HQ).
        -- destruct HQ as [HQ _]. congruence.
    + assert (Hn : (n < length l)%nat) by (apply nth_error_Some; congruence).
      replace (first_whitespace_idx (scan l) =? -1) with false
        by (symmetry; apply Z.eqb_neq; lia).
      rewrite andb_false_r. right. exists n, y. split; [assumption|].
      split; [now rewrite nth_error_app1|].
      split; [now apply whitespace_after_newline_app|].
      intros m z Hm Hz HQ'. rewrite nth_error_app1 in Hz by lia.
      assert (Hml : (m < length l)%nat) by lia.
      apply (proj1 (whitespace_after_newline_app l [x] m z Hml)) in HQ'.
      exact (Hmin m z Hm Hz HQ').
Qed.

(** ** The summary of a clause *)

Lemma get_indexes_cnt (c : BaseSegment) :
  cnt_select_targets (_get_indexes c)
  = Z.of_nat (length (filter is_select_target (segments c))).
Proof. apply scan_cnt. Qed.

Lemma get_indexes_targets (c : BaseSegment) :
  select_targets (_get_indexes c) = filter is_select_target (segments c).
Proof. apply scan_targets. Qed.

Lemma get_indexes_select_idx (c : BaseSegment) :
  select_idx (_get_indexes c)
  = idx_or_absent (first_index is_select_keyword (segments c)).
Proof. apply scan_select_idx. Qed.

Lemma get_indexes_new_line_idx (c : BaseSegment) :
  first_new_line_idx (_get_indexes c)
  = idx_or_absent (first_index is_newline (segments c)).
Proof. apply scan_new_line_idx. Qed.

Lemma get_indexes_target_idx (c : BaseSegment) :
  first_select_target_idx (_get_indexes c)
  = idx_or_absent (first_index is_select_target (segments c)).
Proof. apply scan_target_idx. Qed.

Lemma idx_or_absent_lower (o : option nat) : -1 <= idx_or_absent o.
Proof. destruct o; cbn; lia. Qed.

Lemma idx_or_absent_absent (o : option nat) :
  idx_or_absent o = -1 <-> o = None.
Proof. destruct o; cbn; split; intros; try discriminate; try lia; auto. Qed.

Lemma idx_or_absent_present (o : option nat) (n : nat) :
  idx_or_absent o = Z.of_nat n <-> o = Some n.
Proof.
  destruct o as [m|]; cbn; split; intros H.
  - f_equal. lia.
  - now injection H as ->.
  - lia.
  - discriminate.
Qed.

(** The child found at the first position of a kind. *)
Lemma first_index_nth {A : Type} (P : A -> bool) (l : list A) (n : nat) :
  first_index P l = Some n ->
  exists x, nth_error l n = Some x /\ P x = true.
Proof.
  intros H. apply first_index_Some in H.
  destruct H as (a & x & b & -> & <- & Px & _).
  exists x. split; [apply nth_error_middle|assumption].
Qed.

(** ** The wildcard loop *)

Lemma wildcard_inner_fold (l : list BaseSegment) (acc : bool) :
  fold_left (fun (is_wildcard : bool) sub_segment =>
               if is_type sub_segment "wildcard_expression" then true
               else is_wildcard) l acc
  = acc || existsb is_wildcard_expression l.
Proof.
  revert acc. induction l as [|x l IH]; intros acc; cbn.
  - now rewrite orb_false_r.
  - rewrite IH. unfold is_wildcard_expression.
    destruct (is_type x "wildcard_expression"), acc; reflexivity.
Qed.

Lemma wildcard_outer_fold (l : list BaseSegment) (acc : bool) :
  fold_left
    (fun (is_wildcard : bool) segment =>
       if is_type segment "select_target_element" then
         fold_left
           (fun (is_wildcard : bool) sub_segment =>
              if is_type sub_segment "wildcard_expression" then true
              else is_wildcard)
           (segments segment) is_wildcard
       else is_wildcard) l acc
  = acc || existsb (fun t => is_select_target t && has_wildcard_child t) l.
Proof.
  revert acc. induction l as [|x l IH]; intros acc.
  - cbn. now rewrite orb_false_r.
  - cbn [fold_left existsb]. rewrite IH, wildcard_inner_fold.
    unfold is_select_target, has_wildcard_child.
    destruct (is_type x "select_target_element"), acc,
      (existsb is_wildcard_expression (segments x)); reflexivity.
Qed.

Lemma wildcard_scan_spec (c : BaseSegment) :
  wildcard_scan c = wildcard_target c.
Proof. unfold wildcard_scan. now rewrite wildcard_outer_fold. Qed.

(** ** Dispatch on the number of select targets *)

Lemma eval_not_clause (c : BaseSegment) (rs : list BaseSegment) :
  is_type c "select_clause" = false -> _eval c rs = Ok None.
Proof. intros H. unfold _eval. now rewrite H. Qed.

Lemma eval_no_target (c : BaseSegment) (rs : list BaseSegment) :
  length (filter is_select_target (segments c)) = 0%nat ->
  _eval c rs = Ok None.
Proof.
  intros H. unfold _eval. rewrite get_indexes_cnt, H.
  now destruct (is_type c "select_clause").
Qed.

Lemma eval_single (c : BaseSegment) (rs : list BaseSegment) :
  is_type c "select_clause" = true ->
  length (filter is_select_target (segments c)) = 1%nat ->
  _eval c rs = _eval_single_select_target_element (_get_indexes c) c.
Proof.
  intros Hc H. unfold _eval. now rewrite Hc, get_indexes_cnt, H.
Qed.

Lemma eval_multiple (c : BaseSegment) (rs : list BaseSegment) :
  is_type c "select_clause" = true ->
  (2 <= length (filter is_select_target (segments c)))%nat ->
  _eval c rs = _eval_multiple_select_target_elements (_get_indexes c) c.
Proof.
  intros Hc H. unfold _eval. rewrite Hc, get_indexes_cnt.
  destruct (Z.eqb_spec (Z.of_nat (length (filter is_select_target
                                            (segments c)))) 1); [lia|].
  destruct (Z.gtb_spec (Z.of_nat (length (filter is_select_target
                                            (segments c)))) 1); [|lia].
  reflexivity.
Qed.

(** ** The two decision paths as verdicts *)

Lemma single_outcome (c : BaseSegment) :
  outcome_is c (_eval_single_select_target_element (_get_indexes c) c)
    (if wildcard_target c then NoIssue
     else if (select_idx (_get_indexes c)
              <? first_new_line_idx (_get_indexes c))
             && (first_new_line_idx (_get_indexes c)
                 <? first_select_target_idx (_get_indexes c))
          then DeleteChild (first_new_line_idx (_get_indexes c))
          else NoIssue).
Proof.
  unfold _eval_single_select_target_element. rewrite wildcard_scan_spec.
  destruct (wildcard_target c); [reflexivity|].
  destruct (_ && _) eqn:E; [|reflexivity].
  apply andb_prop in E. destruct E as [E1 _]. apply Z.ltb_lt in E1.
  rewrite get_indexes_select_idx, get_indexes_new_line_idx in *.
  pose proof (idx_or_absent_lower
                (first_index is_select_keyword (segments c))) as Hk.
  destruct (first_index is_newline (segments c)) as [n|] eqn:En;
    cbn in *; [|lia].
  destruct (first_index_nth _ _ _ En) as (x & Hx & _).
  exists x. split; [now apply py_getitem_nth|].
  now rewrite (py_getitem_nth _ _ _ Hx).
Qed.

Lemma multiple_outcome (c : BaseSegment) :
  (2 <= length (filter is_select_target (segments c)))%nat ->
  exists t rest,
    filter is_select_target (segments c) = t :: rest
    /\ outcome_is c
         (_eval_multiple_select_target_elements (_get_indexes c) c)
         (if first_new_line_idx (_get_indexes c) =? -1
          then InsertNewlineBefore t else NoIssue).
Proof.
  intros H. unfold _eval_multiple_select_target_elements.
  rewrite get_indexes_targets.
  destruct (filter is_select_target (segments c)) as [|t rest];
    [cbn in H; lia|].
  exists t, rest. split; [reflexivity|].
  destruct (_ =? -1); reflexivity.
Qed.

(** ** First positions under deletion and insertion *)

Lemma first_index_lt {A : Type} (P : A -> bool) (l : list A) (n : nat) :
  first_index P l = Some n -> (n < length l)%nat.
Proof.
  intros H. destruct (first_index_nth _ _ _ H) as (x & Hx & _).
  apply nth_error_Some. congruence.
Qed.

Lemma first_index_before {A : Type} (P : A -> bool) (l : list A)
    (n m : nat) (y : A) :
  first_index P l = Some n -> (m < n)%nat -> nth_error l m = Some y ->
  P y = false.
Proof.
  intros H Hm Hy. apply first_index_Some in H.
  destruct H as (a & x & b & -> & <- & _ & Ha).
  rewrite nth_error_app1 in Hy by assumption.
  apply nth_error_In in Hy. exact (proj1 (first_index_None _ _) Ha y Hy).
Qed.

Lemma first_index_app_left {A : Type} (P : A -> bool) (a b : list A)
    (n : nat) :
  first_index P (a ++ b) = Some n -> (n < length a)%nat ->
  first_index P a = Some n.
Proof.
  rewrite first_index_app. destruct (first_index P a) as [q|]; [auto|].
  destruct (first_index P b); cbn; [|discriminate].
  intros [= <-] H. lia.
Qed.

Lemma first_index_app_right {A : Type} (P : A -> bool) (a b : list A)
    (n : nat) :
  first_index P (a ++ b) = Some n -> (length a <= n)%nat ->
  first_index P a = None /\ first_index P b = Some (n - length a)%nat.
Proof.
  rewrite first_index_app. destruct (first_index P a) as [q|] eqn:E.
  - intros [= <-] H. apply first_index_lt in E. lia.
  - destruct (first_index P b); cbn; [|discriminate].
    intros [= <-] _. split; [reflexivity|]. f_equal. lia.
Qed.

Lemma first_index_hd_filter {A : Type} (P : A -> bool) (l : list A)
    (n : nat) (x : A) :
  first_index P l = Some n -> nth_error l n = Some x ->
  hd_error (filter P l) = Some x.
Proof.
  intros H Hx. apply first_index_Some in H.
  destruct H as (a & y & b & -> & <- & Py & Ha).
  rewrite nth_error_middle in Hx. injection Hx as ->.
  rewrite filter_app. cbn. rewrite Py.
  assert (filter P a = []) as ->; [|reflexivity].
  clear - Ha. induction a as [|z a IH]; [reflexivity|]. cbn in *.
  destruct (P z); [discriminate|]. apply IH.
  now destruct (first_index P a).
Qed.

Lemma first_index_of_filter {A : Type} (P : A -> bool) (l : list A) :
  (1 <= length (filter P l))%nat -> exists n, first_index P l = Some n.
Proof.
  intros H. destruct (first_index P l) as [n|] eqn:E; [eauto|].
  exfalso. assert (filter P l = []) as Hf; [|rewrite Hf in H; cbn in H; lia].
  clear H. induction l as [|z l IH]; [reflexivity|]. cbn in *.
  destruct (P z); [discriminate|]. apply IH.
  now destruct (first_index P l).
Qed.

Lemma delete_at_middle {A : Type} (a b : list A) (x : A) :
  delete_at (length a) (a ++ x :: b) = a ++ b.
Proof.
  unfold delete_at. induction a as [|z a IH]; [reflexivity|].
  cbn [length app firstn skipn]. cbn [skipn] in IH. now rewrite IH.
Qed.

Lemma filter_insert_before {A : Type} (P : A -> bool) (n : nat) (x : A)
    (l : list A) :
  P x = false -> filter P (insert_before n x l) = filter P l.
Proof.
  intros Px. unfold insert_before. rewrite filter_app. cbn. rewrite Px.
  now rewrite <- filter_app, firstn_skipn.
Qed.

Lemma in_insert_before {A : Type} (n : nat) (x : A) (l : list A) :
  In x (insert_before n x l).
Proof. unfold insert_before. apply in_elt. Qed.

(** The node the single-target path deletes: its index test passed, so the
    first newline exists and the subscript is in range. *)
Lemma single_delete_node (c : BaseSegment) :
  select_idx (_get_indexes c) < first_new_line_idx (_get_indexes c) ->
  exists m x,
    first_new_line_idx (_get_indexes c) = Z.of_nat m
    /\ first_index is_newline (segments c) = Some m
    /\ nth_error (segments c) m = Some x
    /\ is_newline x = true
    /\ py_getitem (segments c) (first_new_line_idx (_get_indexes c)) = Ok x.
Proof.
  rewrite get_indexes_select_idx, get_indexes_new_line_idx. intros H.
  pose proof (idx_or_absent_lower
                (first_index is_select_keyword (segments c))) as Hk.
  destruct (first_index is_newline (segments c)) as [m|] eqn:En;
    cbn in *; [|lia].
  destruct (first_index_nth _ _ _ En) as (x & Hx & Hnl).
  exists m, x. repeat split; try assumption. now apply py_getitem_nth.
Qed.

(** ** The landmark scanner *)

(** C6: on any clause the scanner returns a summary in which
    [cnt_select_targets] is the number of direct children of kind
    [select_target_element], [select_targets] lists exactly those children
    in document order, [select_idx], [first_new_line_idx] and
    [first_select_target_idx] are the index of the first child that is a
    keyword named SELECT, a newline, a select target respectively (or the
    absent value), and [first_whitespace_idx] is the index of the first
    whitespace child that comes strictly after a newline child (or the
    absent value). *)
Theorem scanner_summary (c : BaseSegment) :
  cnt_select_targets (_get_indexes c)
  = Z.of_nat (length (filter is_select_target (segments c)))
  /\ select_targets (_get_indexes c) = filter is_select_target (segments c)
  /\ first_at (fun _ x => is_select_keyword x = true) (segments c)
       (select_idx (_get_indexes c))
  /\ first_at (fun _ x => is_newline x = true) (segments c)
       (first_new_line_idx (_get_indexes c))
  /\ first_at (fun _ x => is_select_target x = true) (segments c)
       (first_select_target_idx (_get_indexes c))
  /\ first_at (whitespace_after_newline (segments c)) (segments c)
       (first_whitespace_idx (_get_indexes c)).
Proof.
  split; [apply get_indexes_cnt|].
  split; [apply get_indexes_targets|].
  rewrite get_indexes_select_idx, get_indexes_new_line_idx,
    get_indexes_target_idx.
  repeat split; try apply first_index_first_at.
  apply scan_whitespace_idx.
Qed.

(** ** Clauses without select target *)

(** C7: for every clause none of whose direct children is a select target
    (an empty child list, a missing SELECT keyword and any absent landmark
    included), the rule returns no issue and does not raise. *)
Theorem no_target_no_issue (c : BaseSegment) (rs : list BaseSegment) :
  (forall x, In x (segments c) -> is_select_target x = false) ->
  _eval c rs = Ok None.
Proof.
  intros H. apply eval_no_target.
  induction (segments c) as [|x l IH]; [reflexivity|]. cbn.
  rewrite (H x (or_introl eq_refl)). apply IH.
  intros y Hy. apply H. now right.
Qed.

(** ** The multi-target path *)

(** C3: for every clause with two or more select targets, the rule returns
    a violation, anchored at the clause, with the single fix that creates a
    newline node before the first select target, if and only if no direct
    child of the clause is a newline; when some child is a newline it
    returns no issue. *)
Theorem multi_target_insert_iff_no_newline
    (c : BaseSegment) (rs : list BaseSegment) :
  is_type c "select_clause" = true ->
  (2 <= length (filter is_select_target (segments c)))%nat ->
  exists t,
    hd_error (filter is_select_target (segments c)) = Some t
    /\ (_eval c rs
        = Ok (Some (mkLintResult c
               [mkLintFix "create" t
                  (Some (make_newline
                           (advance_by (pos_marker c) (raw c))))]))
        <-> forall x, In x (segments c) -> is_newline x = false)
    /\ ((exists x, In x (segments c) /\ is_newline x = true) ->
        _eval c rs = Ok None).
Proof.
  intros Hc Hn. rewrite (eval_multiple c rs Hc Hn).
  destruct (multiple_outcome c Hn) as (t & rest & Hf & Ho).
  exists t. rewrite Hf. split; [reflexivity|].
  rewrite get_indexes_new_line_idx in Ho.
  destruct (first_index is_newline (segments c)) as [n|] eqn:E; cbn in Ho.
  - destruct (Z.eqb_spec (Z.of_nat n) (-1)) as [|_]; [lia|]. cbn in Ho.
    destruct (first_index_nth _ _ _ E) as (x & Hx & Hnl).
    apply nth_error_In in Hx. rewrite Ho. split; [|reflexivity].
    split; [discriminate|]. intros H. rewrite (H x Hx) in Hnl. discriminate.
  - cbn in Ho. rewrite Ho. split.
    + split; [|reflexivity]. intros _. now apply first_index_None.
    + intros (x & Hx & Hnl).
      rewrite (proj1 (first_index_None _ _) E x Hx) in Hnl. discriminate.
Qed.

(** C8: when the multi-target path emits its insert fix, the position
    marker of the newly built newline node is the clause's own position
    marker advanced by the clause's full raw text; it is not taken from the
    first select target before which the node is inserted. *)
Theorem inserted_newline_position
    (c : BaseSegment) (rs : list BaseSegment) (r : LintResult) :
  (2 <= length (filter is_select_target (segments c)))%nat ->
  _eval c rs = Ok (Some r) ->
  exists t ins,
    hd_error (filter is_select_target (segments c)) = Some t
    /\ fixes r = [mkLintFix "create" t (Some ins)]
    /\ pos_marker ins = advance_by (pos_marker c) (raw c)
    /\ (pos_marker t <> advance_by (pos_marker c) (raw c) ->
        pos_marker ins <> pos_marker t).
Proof.
  intros Hn He.
  destruct (is_type c "select_clause") eqn:Hc;
    [|rewrite (eval_not_clause c rs Hc) in He; discriminate].
  rewrite (eval_multiple c rs Hc Hn) in He.
  destruct (multiple_outcome c Hn) as (t & rest & Hf & Ho).
  rewrite He in Ho.
  destruct (first_new_line_idx (_get_indexes c) =? -1); cbn in Ho;
    [|discriminate].
  injection Ho as ->. exists t, (make_newline (advance_by (pos_marker c) (raw c))).
  rewrite Hf. cbn. repeat split. intros Hd Heq. apply Hd. now symmetry.
Qed.

(** ** The single-target path and the wildcard exemption *)

(** C4: for every clause with exactly one select target, if a direct child
    of that target is a wildcard expression the rule returns no issue,
    wherever the newlines of the clause are; a wildcard expression that sits
    deeper than one level below the target does not exempt the clause: the
    outcome is then the one of the index test. *)
Theorem wildcard_exemption_is_shallow
    (c : BaseSegment) (rs : list BaseSegment) :
  is_type c "select_clause" = true ->
  length (filter is_select_target (segments c)) = 1%nat ->
  (wildcard_target c = true -> _eval c rs = Ok None)
  /\ (wildcard_target c = false -> deep_wildcard_target c = true ->
      outcome_is c (_eval c rs)
        (if (select_idx (_get_indexes c)
             <? first_new_line_idx (_get_indexes c))
            && (first_new_line_idx (_get_indexes c)
                <? first_select_target_idx (_get_indexes c))
         then DeleteChild (first_new_line_idx (_get_indexes c))
         else NoIssue)).
Proof.
  intros Hc H1. rewrite (eval_single c rs Hc H1).
  pose proof (single_outcome c) as Ho.
  split.
  - intros Hw. now rewrite Hw in Ho.
  - intros Hw _. now rewrite Hw in Ho.
Qed.

(** X15: the single-target path, exactly: on a clause with one select target and
    no wildcard, the rule deletes the first newline when the integer test
    [select_idx < first_new_line_idx < first_select_target_idx] passes, the
    absent value being [-1], and returns no issue otherwise. *)
Theorem single_target_decision (c : BaseSegment) (rs : list BaseSegment) :
  is_type c "select_clause" = true ->
  length (filter is_select_target (segments c)) = 1%nat ->
  wildcard_target c = false ->
  (select_idx (_get_indexes c) < first_new_line_idx (_get_indexes c)
   /\ first_new_line_idx (_get_indexes c)
      < first_select_target_idx (_get_indexes c) ->
   exists n nl,
     first_new_line_idx (_get_indexes c) = Z.of_nat n
     /\ nth_error (segments c) n = Some nl
     /\ is_newline nl = true
     /\ _eval c rs = Ok (Some (mkLintResult c [mkLintFix "delete" nl None])))
  /\ (~ (select_idx (_get_indexes c) < first_new_line_idx (_get_indexes c)
         /\ first_new_line_idx (_get_indexes c)
            < first_select_target_idx (_get_indexes c)) ->
      _eval c rs = Ok None).
Proof.
  intros Hc H1 Hw. rewrite (eval_single c rs Hc H1).
  pose proof (single_outcome c) as Ho. rewrite Hw in Ho. split.
  - intros [Hkn Hnt].
    rewrite (proj2 (Z.ltb_lt _ _) Hkn), (proj2 (Z.ltb_lt _ _) Hnt) in Ho.
    destruct (single_delete_node c Hkn) as (n & x & Hn & _ & Hx & Hnl & Hg).
    destruct Ho as (nl & Hg' & ->). exists n, x.
    repeat (split; [assumption|]). congruence.
  - intros Hno. destruct (_ && _) eqn:T; [|exact Ho].
    apply andb_prop in T. destruct T as [T1 T2].
    apply Z.ltb_lt in T1, T2. tauto.
Qed.

(** ** The whitespace landmark does not reach the decision *)

(** C9: for any two clauses whose summaries are equal in every field except
    [first_whitespace_idx], and whose wildcard tests are equal, the rule
    returns the same outcome: no issue for both, the deletion of the child
    at the same index for both, or the insertion of a newline before the
    same select target for both. *)
Theorem whitespace_index_irrelevant
    (c1 c2 : BaseSegment) (rs1 rs2 : list BaseSegment) :
  is_type c1 "select_clause" = true ->
  is_type c2 "select_clause" = true ->
  agree_except_whitespace (_get_indexes c1) (_get_indexes c2) ->
  wildcard_target c1 = wildcard_target c2 ->
  exists v, outcome_is c1 (_eval c1 rs1) v /\ outcome_is c2 (_eval c2 rs2) v.
Proof.
  intros Hc1 Hc2 (Hcnt & Hk & Hn & Ht & Hts) Hw.
  assert (Hlen : length (filter is_select_target (segments c1))
                 = length (filter is_select_target (segments c2))).
  { rewrite !get_indexes_cnt in Hcnt. lia. }
  destruct (length (filter is_select_target (segments c1)))
    as [|[|k]] eqn:E1.
  - exists NoIssue. split; cbn; apply eval_no_target; congruence.
  - rewrite (eval_single c1 rs1 Hc1 E1).
    rewrite (eval_single c2 rs2 Hc2 (eq_sym Hlen)).
    pose proof (single_outcome c1) as H1.
    pose proof (single_outcome c2) as H2.
    rewrite Hw, Hk, Hn, Ht in H1. eauto.
  - assert (G1 : (2 <= length (filter is_select_target (segments c1)))%nat)
      by lia.
    assert (G2 : (2 <= length (filter is_select_target (segments c2)))%nat)
      by lia.
    rewrite (eval_multiple c1 rs1 Hc1 G1), (eval_multiple c2 rs2 Hc2 G2).
    destruct (multiple_outcome c1 G1) as (t1 & r1 & F1 & H1).
    destruct (multiple_outcome c2 G2) as (t2 & r2 & F2 & H2).
    rewrite !get_indexes_targets in Hts.
    assert (t1 = t2) as -> by congruence.
    rewrite Hn in H1. eauto.
Qed.

(** ** Every fix names a node of the clause *)

(** C10: the rule never raises on a subscript, and every fix it emits
    references a valid node: a delete fix names the child found at
    [first_new_line_idx], which is a valid index of the clause's child list
    and holds a newline; a create fix names the first element of
    [select_targets], which is not empty. *)
Theorem fixes_reference_valid_nodes
    (c : BaseSegment) (rs : list BaseSegment) :
  (exists o, _eval c rs = Ok o)
  /\ forall r f, _eval c rs = Ok (Some r) -> In f (fixes r) ->
       (edit_type f = "delete"
        /\ exists n, first_new_line_idx (_get_indexes c) = Z.of_nat n
             /\ (n < length (segments c))%nat
             /\ nth_error (segments c) n = Some (fix_anchor f)
             /\ is_newline (fix_anchor f) = true)
       \/ (edit_type f = "create"
           /\ select_targets (_get_indexes c) <> []
           /\ hd_error (select_targets (_get_indexes c))
              = Some (fix_anchor f)).
Proof.
  destruct (is_type c "select_clause") eqn:Hc;
    [|rewrite (eval_not_clause c rs Hc); split; [eauto|discriminate]].
  destruct (length (filter is_select_target (segments c)))
    as [|[|k]] eqn:E.
  - rewrite (eval_no_target c rs E). split; [eauto|discriminate].
  - rewrite (eval_single c rs Hc E). pose proof (single_outcome c) as Ho.
    destruct (wildcard_target c);
      [cbn in Ho; rewrite Ho; split; [eauto|discriminate]|].
    destruct (_ && _) eqn:T;
      [|cbn in Ho; rewrite Ho; split; [eauto|discriminate]].
    apply andb_prop in T. destruct T as [T _]. apply Z.ltb_lt in T.
    destruct (single_delete_node c T) as (m & x & Hm & _ & Hx & Hnl & Hg).
    destruct Ho as (nl & Hg' & ->). split; [eauto|].
    intros r f [= <-] [<-|[]]. left. split; [reflexivity|].
    exists m. cbn. assert (nl = x) as -> by congruence.
    repeat split; try assumption. apply nth_error_Some. congruence.
  - assert (G : (2 <= length (filter is_select_target (segments c)))%nat)
      by lia.
    rewrite (eval_multiple c rs Hc G).
    destruct (multiple_outcome c G) as (t & rest & F & Ho).
    destruct (_ =? -1); cbn in Ho; rewrite Ho; split; eauto;
      try discriminate.
    intros r f [= <-] [<-|[]]. right. cbn.
    rewrite get_indexes_targets, F. repeat split. discriminate.
Qed.

(** ** Applying the fix and scanning again *)

(** C5: for every clause with two or more select targets and no newline
    child, applying the proposed insert, the new newline node placed
    immediately before the first select target in the child list, and
    running the rule again on the resulting clause returns no issue. *)
Theorem insert_fix_not_retriggered
    (c : BaseSegment) (rs : list BaseSegment) :
  is_type c "select_clause" = true ->
  (2 <= length (filter is_select_target (segments c)))%nat ->
  (forall x, In x (segments c) -> is_newline x = false) ->
  exists n t,
    first_index is_select_target (segments c) = Some n
    /\ nth_error (segments c) n = Some t
    /\ _eval c rs
       = Ok (Some (mkLintResult c
              [mkLintFix "create" t
                 (Some (make_newline (advance_by (pos_marker c) (raw c))))]))
    /\ forall c' rs',
         is_type c' "select_clause" = true ->
         segments c'
         = insert_before n
             (make_newline (advance_by (pos_marker c) (raw c)))
             (segments c) ->
         _eval c' rs' = Ok None.
Proof.
  intros Hc Hn Hnl.
  assert (H1 : (1 <= length (filter is_select_target (segments c)))%nat)
    by lia.
  destruct (first_index_of_filter _ _ H1) as (n & En).
  destruct (first_index_nth _ _ _ En) as (t & Ht & _).
  exists n, t. split; [assumption|]. split; [assumption|]. split.
  - rewrite (eval_multiple c rs Hc Hn).
    destruct (multiple_outcome c Hn) as (t' & rest & F & Ho).
    pose proof (first_index_hd_filter _ _ _ _ En Ht) as Hhd.
    rewrite F in Hhd. injection Hhd as ->.
    rewrite get_indexes_new_line_idx in Ho.
    rewrite (proj2 (first_index_None _ _) Hnl) in Ho. exact Ho.
  - intros c' rs' Hc' Hs.
    assert (Hn' : (2 <= length (filter is_select_target (segments c')))%nat).
    { rewrite Hs, filter_insert_before; [assumption|reflexivity]. }
    rewrite (eval_multiple c' rs' Hc' Hn').
    destruct (multiple_outcome c' Hn') as (t' & rest & _ & Ho).
    rewrite get_indexes_new_line_idx in Ho.
    destruct (first_index is_newline (segments c')) as [m|] eqn:E.
    + cbn in Ho. destruct (Z.eqb_spec (Z.of_nat m) (-1)); [lia|]. exact Ho.
    + exfalso.
      pose proof (proj1 (first_index_None _ _) E
                    (make_newline (advance_by (pos_marker c) (raw c)))) as Hf.
      rewrite Hs in Hf. specialize (Hf (in_insert_before _ _ _)).
      discriminate.
Qed.

(** C2, amended: for every clause with exactly one select target, no
    wildcard, and a newline strictly between the keyword and the target
    (the keyword is present and
    [select_idx < first_new_line_idx < first_select_target_idx]), the rule
    returns a violation deleting that newline; applying that deletion to the
    child list and running the rule again yields no issue if and only if no
    further newline child lies between the deleted newline and the
    target. *)
Theorem delete_fix_then_rescan (c : BaseSegment) (rs : list BaseSegment) :
  is_type c "select_clause" = true ->
  length (filter is_select_target (segments c)) = 1%nat ->
  wildcard_target c = false ->
  0 <= select_idx (_get_indexes c) ->
  select_idx (_get_indexes c) < first_new_line_idx (_get_indexes c) ->
  first_new_line_idx (_get_indexes c)
  < first_select_target_idx (_get_indexes c) ->
  exists n nl,
    first_new_line_idx (_get_indexes c) = Z.of_nat n
    /\ nth_error (segments c) n = Some nl
    /\ is_newline nl = true
    /\ _eval c rs = Ok (Some (mkLintResult c [mkLintFix "delete" nl None]))
    /\ forall c' rs',
         is_type c' "select_clause" = true ->
         segments c' = delete_at n (segments c) ->
         (_eval c' rs' = Ok None
          <-> forall m y,
                (n < m)%nat ->
                Z.of_nat m < first_select_target_idx (_get_indexes c) ->
                nth_error (segments c) m = Some y -> is_newline y = false).
Proof.
  intros Hc H1 Hw Hk Hkn Hnt.
  destruct (single_delete_node c Hkn) as (n & x & Hn & En & Hx & Hnl & Hg).
  exists n, x. repeat (split; [assumption|]). split.
  - rewrite (eval_single c rs Hc H1). pose proof (single_outcome c) as Ho.
    rewrite Hw in Ho.
    rewrite (proj2 (Z.ltb_lt _ _) Hkn), (proj2 (Z.ltb_lt _ _) Hnt) in Ho.
    destruct Ho as (nl & Hg' & ->). congruence.
  - intros c' rs' Hc' Hs.
    rewrite get_indexes_select_idx in Hk, Hkn.
    rewrite get_indexes_target_idx in *. rewrite Hn in Hkn, Hnt.
    destruct (first_index is_select_keyword (segments c)) as [k|] eqn:Ek;
      cbn in Hk, Hkn; [|lia].
    destruct (first_index is_select_target (segments c)) as [t|] eqn:Et;
      cbn in Hnt |- *; [|lia].
    apply first_index_Some in En.
    destruct En as (a & x' & b & Hl & <- & _ & Ha).
    rewrite Hl in Hx. rewrite nth_error_middle in Hx. injection Hx as ->.
    rewrite Hl in *. rewrite delete_at_middle in Hs.
    apply first_index_app_left in Ek; [|lia].
    apply first_index_app_right in Et; [|lia].
    destruct Et as [Eta Etb]. cbn in Etb.
    rewrite (newline_not_target _ Hnl) in Etb.
    destruct (first_index is_select_target b) as [tb|] eqn:Etb';
      [|discriminate].
    cbn in Etb. injection Etb as Etb.
    assert (H1' : length (filter is_select_target (segments c')) = 1%nat).
    { rewrite Hs, filter_app. rewrite filter_app in H1. cbn in H1.
      now rewrite (newline_not_target _ Hnl) in H1. }
    assert (Hw' : wildcard_target c' = false).
    { unfold wildcard_target in *. rewrite Hs, existsb_app.
      rewrite Hl, existsb_app in Hw. cbn in Hw.
      now rewrite (newline_not_target _ Hnl) in Hw. }
    rewrite (eval_single c' rs' Hc' H1').
    pose proof (single_outcome c') as Ho. rewrite Hw' in Ho.
    rewrite get_indexes_select_idx, get_indexes_new_line_idx,
      get_indexes_target_idx, Hs in Ho.
    rewrite !first_index_app, Ek, Eta, Ha, Etb' in Ho. cbn in Ho.
    destruct (first_index is_newline b) as [nb|] eqn:Enb; cbn in Ho.
    + destruct (Z.ltb_spec (Z.of_nat k) (Z.of_nat (length a + nb)));
        [|lia].
      destruct (Z.ltb_spec (Z.of_nat (length a + nb))
                           (Z.of_nat (length a + tb))) as [Hlt|Hge];
        cbn in Ho.
      * destruct Ho as (nl & _ & ->). split; [discriminate|]. intros Hall.
        destruct (first_index_nth _ _ _ Enb) as (y & Hy & Hynl).
        rewrite (Hall (S (length a + nb)) y) in Hynl;
          [discriminate|lia|lia|].
        rewrite nth_error_app2 by lia.
        replace (S (length a + nb) - length a)%nat with (S nb) by lia.
        exact Hy.
      * rewrite Ho. split; [|reflexivity]. intros _ m y Hm Hmt Hy.
        rewrite nth_error_app2 in Hy by lia.
        destruct (m - length a)%nat as [|j] eqn:Ej; [lia|]. cbn in Hy.
        refine (first_index_before _ _ _ j _ Enb _ Hy). lia.
    + destruct (Z.ltb_spec (Z.of_nat k) (-1)); [lia|]. cbn in Ho.
      rewrite Ho. split; [|reflexivity]. intros _ m y Hm Hmt Hy.
      rewrite nth_error_app2 in Hy by lia.
      destruct (m - length a)%nat as [|j] eqn:Ej; [lia|]. cbn in Hy.
      apply nth_error_In in Hy.
      exact (proj1 (first_index_None _ _) Enb y Hy).
Qed.

(** * Further properties of the scanner and of the decision paths *)

Lemma first_index_None_filter {A : Type} (P : A -> bool) (l : list A) :
  first_index P l = None <-> filter P l = [].
Proof.
  induction l as [|x l IH]; cbn; [tauto|].
  destruct (P x); [split; discriminate|].
  destruct (first_index P l); cbn.
  - split; [discriminate|]. intros H. apply IH in H. discriminate.
  - split; [|reflexivity]. intros _. now apply IH.
Qed.

Lemma first_index_le {A : Type} (P : A -> bool) (l : list A) (m : nat)
    (y : A) :
  nth_error l m = Some y -> P y = true ->
  exists q, first_index P l = Some q /\ (q <= m)%nat.
Proof.
  intros Hy Py. destruct (first_index P l) as [q|] eqn:E.
  - exists q. split; [reflexivity|].
    destruct (Nat.le_gt_cases q m) as [|Hlt]; [assumption|].
    rewrite (first_index_before _ _ _ _ _ E Hlt Hy) in Py. discriminate.
  - apply nth_error_In in Hy.
    rewrite (proj1 (first_index_None _ _) E y Hy) in Py. discriminate.
Qed.

Lemma length_filter_le {A : Type} (P : A -> bool) (l : list A) :
  (length (filter P l) <= length l)%nat.
Proof.
  induction l as [|x l IH]; cbn; [lia|]. destruct (P x); cbn; lia.
Qed.

Lemma idx_first_index_range {A : Type} (P : A -> bool) (l : list A) :
  -1 <= idx_or_absent (first_index P l) < Z.of_nat (length l).
Proof.
  destruct (first_index P l) as [n|] eqn:E; cbn; [|lia].
  apply first_index_lt in E. lia.
Qed.

(** X1: the count of the summary is the length of its target list, the
    first target index is absent exactly when the count is zero, and every
    listed target is a direct child of the clause of kind select target. *)
Theorem summary_targets_consistent (c : BaseSegment) :
  cnt_select_targets (_get_indexes c)
  = Z.of_nat (length (select_targets (_get_indexes c)))
  /\ (cnt_select_targets (_get_indexes c) = 0
      <-> first_select_target_idx (_get_indexes c) = -1)
  /\ forall t, In t (select_targets (_get_indexes c)) ->
               In t (segments c) /\ is_select_target t = true.
Proof.
  rewrite get_indexes_cnt, get_indexes_targets, get_indexes_target_idx.
  split; [reflexivity|]. split.
  - rewrite idx_or_absent_absent, first_index_None_filter.
    destruct (filter is_select_target (segments c)); cbn; split;
      intros H; try reflexivity; try discriminate; lia.
  - intros t Ht. now apply filter_In in Ht.
Qed.

(** X2: when the clause has a select target, the first element of the
    target list and the child at [first_select_target_idx] are the same
    node, and both subscripts are in range. *)
Theorem first_target_is_indexed_child (c : BaseSegment) :
  0 < cnt_select_targets (_get_indexes c) ->
  exists t,
    py_getitem (select_targets (_get_indexes c)) 0 = Ok t
    /\ py_getitem (segments c) (first_select_target_idx (_get_indexes c))
       = Ok t
    /\ is_select_target t = true.
Proof.
  rewrite get_indexes_cnt, get_indexes_targets, get_indexes_target_idx.
  intros H.
  assert (H1 : (1 <= length (filter is_select_target (segments c)))%nat)
    by lia.
  destruct (first_index_of_filter _ _ H1) as (n & En).
  destruct (first_index_nth _ _ _ En) as (t & Ht & Pt).
  pose proof (first_index_hd_filter _ _ _ _ En Ht) as Hhd.
  exists t. rewrite En. cbn [idx_or_absent].
  split; [|split; [now apply py_getitem_nth|assumption]].
  destruct (filter is_select_target (segments c)) as [|t' rest];
    [discriminate|].
  now injection Hhd as ->.
Qed.

(** X3: every index field of the summary is the absent value or a valid
    index of the clause's child list, and the count is between zero and the
    number of children. *)
Theorem landmarks_in_range (c : BaseSegment) :
  0 <= cnt_select_targets (_get_indexes c) <= Z.of_nat (length (segments c))
  /\ -1 <= select_idx (_get_indexes c) < Z.of_nat (length (segments c))
  /\ -1 <= first_new_line_idx (_get_indexes c)
     < Z.of_nat (length (segments c))
  /\ -1 <= first_select_target_idx (_get_indexes c)
     < Z.of_nat (length (segments c))
  /\ -1 <= first_whitespace_idx (_get_indexes c)
     < Z.of_nat (length (segments c)).
Proof.
  rewrite get_indexes_cnt, get_indexes_select_idx, get_indexes_new_line_idx,
    get_indexes_target_idx.
  split.
  { pose proof (length_filter_le is_select_target (segments c)). lia. }
  repeat (split; [apply idx_first_index_range|]).
  destruct (scan_whitespace_idx (segments c))
    as [[Hw _]|(n & y & Hw & Hy & _)]; unfold _get_indexes; rewrite Hw.
  - lia.
  - assert ((n < length (segments c))%nat)
      by (apply nth_error_Some; congruence).
    lia.
Qed.

(** X4: a recorded whitespace index always comes with a recorded newline
    index, strictly before it: whitespace that precedes the first newline is
    never recorded. *)
Theorem whitespace_recorded_after_newline (c : BaseSegment) :
  first_whitespace_idx (_get_indexes c) <> -1 ->
  0 <= first_new_line_idx (_get_indexes c)
  /\ first_new_line_idx (_get_indexes c)
     < first_whitespace_idx (_get_indexes c).
Proof.
  intros H. rewrite get_indexes_new_line_idx.
  destruct (scan_whitespace_idx (segments c))
    as [[Hw _]|(n & y & Hw & _ & [_ (m & z & Hm & Hz & Hnl)] & _)];
    unfold _get_indexes in *; [congruence|].
  destruct (first_index_le _ _ _ _ Hz Hnl) as (q & -> & Hq).
  rewrite Hw. cbn. lia.
Qed.

(** X7: the wildcard flag of the single-target path is set exactly when
    some direct child of the clause is a select target that has a wildcard
    expression among its own direct children. *)
Theorem wildcard_flag_iff (c : BaseSegment) :
  wildcard_scan c = true
  <-> exists t s,
        In t (segments c) /\ is_select_target t = true
        /\ In s (segments t) /\ is_wildcard_expression s = true.
Proof.
  rewrite wildcard_scan_spec. unfold wildcard_target, has_wildcard_child.
  rewrite existsb_exists. split.
  - intros (t & Ht & H). apply andb_prop in H. destruct H as [Pt H].
    apply existsb_exists in H. destruct H as (s & Hs & Ps).
    now exists t, s.
  - intros (t & s & Ht & Pt & Hs & Ps). exists t. split; [assumption|].
    rewrite Pt. cbn. apply existsb_exists. now exists s.
Qed.

(** X8: a violation is always reported on a select clause, anchored at the
    clause itself, with exactly one fix whose node is a direct child of the
    clause: either a delete of a newline child, without edit node and only
    for a lone select target, or a create before a select target with a new
    childless newline node, only for two or more select targets. *)
Theorem violation_shape
    (c : BaseSegment) (rs : list BaseSegment) (r : LintResult) :
  _eval c rs = Ok (Some r) ->
  is_type c "select_clause" = true
  /\ anchor r = c
  /\ exists f,
       fixes r = [f]
       /\ In (fix_anchor f) (segments c)
       /\ ((edit_type f = "delete" /\ edit f = None
            /\ cnt_select_targets (_get_indexes c) = 1
            /\ is_newline (fix_anchor f) = true)
           \/ (edit_type f = "create"
               /\ 1 < cnt_select_targets (_get_indexes c)
               /\ is_select_target (fix_anchor f) = true
               /\ exists ins, edit f = Some ins
                    /\ is_newline ins = true /\ segments ins = [])).
Proof.
  intros He.
  destruct (is_type c "select_clause") eqn:Hc;
    [|rewrite (eval_not_clause c rs Hc) in He; discriminate].
  split; [reflexivity|].
  destruct (length (filter is_select_target (segments c)))
    as [|[|k]] eqn:E.
  - rewrite (eval_no_target c rs E) in He. discriminate.
  - rewrite (eval_single c rs Hc E) in He.
    pose proof (single_outcome c) as Ho. rewrite He in Ho.
    destruct (wildcard_target c); [discriminate|].
    destruct (_ && _) eqn:T; [|discriminate].
    apply andb_prop in T. destruct T as [T _]. apply Z.ltb_lt in T.
    destruct (single_delete_node c T) as (m & x & _ & _ & Hx & Hnl & Hg).
    destruct Ho as (nl & Hg' & [= ->]). assert (nl = x) as -> by congruence.
    split; [reflexivity|]. eexists. split; [reflexivity|]. cbn.
    split; [now apply nth_error_In in Hx|]. left.
    rewrite get_indexes_cnt, E. auto.
  - assert (G : (2 <= length (filter is_select_target (segments c)))%nat)
      by lia.
    rewrite (eval_multiple c rs Hc G) in He.
    destruct (multiple_outcome c G) as (t & rest & F & Ho).
    rewrite He in Ho. destruct (_ =? -1); [|discriminate].
    injection Ho as ->. split; [reflexivity|].
    eexists. split; [reflexivity|]. cbn.
    assert (Ht : In t (filter is_select_target (segments c)))
      by (rewrite F; now left).
    apply filter_In in Ht. destruct Ht as [Ht Pt].
    split; [assumption|]. right. rewrite get_indexes_cnt.
    repeat split; try assumption; try lia. eexists. repeat split.
Qed.

(** X9: a clause with exactly one select target and no newline child before
    that target (no newline at all, or newlines after the target only) is
    never reported, whatever its keyword and its other children are. *)
Theorem lone_target_without_leading_newline
    (c : BaseSegment) (rs : list BaseSegment) :
  length (filter is_select_target (segments c)) = 1%nat ->
  (forall m y,
     Z.of_nat m < first_select_target_idx (_get_indexes c) ->
     nth_error (segments c) m = Some y -> is_newline y = false) ->
  _eval c rs = Ok None.
Proof.
  intros H1 Hno.
  destruct (is_type c "select_clause") eqn:Hc;
    [|now apply eval_not_clause].
  rewrite (eval_single c rs Hc H1).
  pose proof (single_outcome c) as Ho.
  destruct (wildcard_target c); [exact Ho|].
  destruct (_ && _) eqn:T; [|exact Ho].
  apply andb_prop in T. destruct T as [T1 T2]. apply Z.ltb_lt in T1, T2.
  destruct (single_delete_node c T1) as (m & x & Hm & _ & Hx & Hnl & _).
  rewrite Hm in T2. rewrite (Hno m x T2 Hx) in Hnl. discriminate.
Qed.

(** X10: the node of a delete fix is the first newline child of the clause
    and stands before the select target: no newline precedes it, and a
    newline that follows the target is never deleted. *)
Theorem deleted_newline_is_first_and_before_target
    (c : BaseSegment) (rs : list BaseSegment) (r : LintResult)
    (f : LintFix) :
  _eval c rs = Ok (Some r) -> In f (fixes r) -> edit_type f = "delete" ->
  exists n t tg,
    nth_error (segments c) n = Some (fix_anchor f)
    /\ (forall m y, (m < n)%nat -> nth_error (segments c) m = Some y ->
                    is_newline y = false)
    /\ nth_error (segments c) t = Some tg
    /\ is_select_target tg = true
    /\ (n < t)%nat
    /\ select_idx (_get_indexes c) < Z.of_nat n.
Proof.
  intros He Hf Hd.
  destruct (is_type c "select_clause") eqn:Hc;
    [|rewrite (eval_not_clause c rs Hc) in He; discriminate].
  destruct (length (filter is_select_target (segments c)))
    as [|[|k]] eqn:E.
  - rewrite (eval_no_target c rs E) in He. discriminate.
  - rewrite (eval_single c rs Hc E) in He.
    pose proof (single_outcome c) as Ho. rewrite He in Ho.
    destruct (wildcard_target c); [discriminate|].
    destruct (_ && _) eqn:T; [|discriminate].
    apply andb_prop in T. destruct T as [T1 T2]. apply Z.ltb_lt in T1, T2.
    destruct (single_delete_node c T1) as (m & x & Hm & En & Hx & Hnl & Hg).
    destruct Ho as (nl & Hg' & [= ->]). assert (nl = x) as -> by congruence.
    destruct Hf as [<-|[]]. cbn.
    rewrite Hm in T1, T2. rewrite get_indexes_target_idx in T2.
    destruct (first_index is_select_target (segments c)) as [t|] eqn:Et;
      cbn in T2; [|lia].
    destruct (first_index_nth _ _ _ Et) as (tg & Htg & Ptg).
    exists m, t, tg. repeat split; try assumption; try lia.
    intros j y Hj Hy. exact (first_index_before _ _ _ _ _ En Hj Hy).
  - assert (G : (2 <= length (filter is_select_target (segments c)))%nat)
      by lia.
    rewrite (eval_multiple c rs Hc G) in He.
    destruct (multiple_outcome c G) as (t & rest & F & Ho).
    rewrite He in Ho. destruct (_ =? -1); [|discriminate].
    injection Ho as ->. destruct Hf as [<-|[]]. discriminate.
Qed.

(** ** The scan and the shape of the child list *)

Lemma scan_app_whitespace_idx (l r : list BaseSegment) :
  first_whitespace_idx (scan l) <> -1 ->
  first_whitespace_idx (scan (l ++ r)) = first_whitespace_idx (scan l).
Proof.
  intros H. induction r as [|x r IH] using rev_ind.
  - now rewrite app_nil_r.
  - rewrite app_assoc, scan_snoc, scan_step_whitespace_idx, IH.
    destruct (Z.eqb_spec (first_whitespace_idx (scan l)) (-1));
      [contradiction|].
    now rewrite andb_false_r.
Qed.

Lemma first_index_app_stable {A : Type} (P : A -> bool) (l r : list A) :
  idx_or_absent (first_index P l) <> -1 ->
  idx_or_absent (first_index P (l ++ r)) = idx_or_absent (first_index P l).
Proof.
  intros H. rewrite first_index_app.
  destruct (first_index P l); [reflexivity|]. now cbn in H.
Qed.

(** X5: the first occurrence wins: children appended to a clause never
    change a landmark that is already recorded, and the targets found so far
    stay, in order, at the head of the target list. *)
Theorem first_occurrence_wins
    (c c' : BaseSegment) (more : list BaseSegment) :
  segments c' = segments c ++ more ->
  (select_idx (_get_indexes c) <> -1 ->
   select_idx (_get_indexes c') = select_idx (_get_indexes c))
  /\ (first_new_line_idx (_get_indexes c) <> -1 ->
      first_new_line_idx (_get_indexes c')
      = first_new_line_idx (_get_indexes c))
  /\ (first_select_target_idx (_get_indexes c) <> -1 ->
      first_select_target_idx (_get_indexes c')
      = first_select_target_idx (_get_indexes c))
  /\ (first_whitespace_idx (_get_indexes c) <> -1 ->
      first_whitespace_idx (_get_indexes c')
      = first_whitespace_idx (_get_indexes c))
  /\ select_targets (_get_indexes c')
     = select_targets (_get_indexes c) ++ filter is_select_target more.
Proof.
  intros Hs.
  rewrite !get_indexes_select_idx, !get_indexes_new_line_idx,
    !get_indexes_target_idx, !get_indexes_targets, Hs.
  repeat (split; [apply first_index_app_stable|]).
  split; [|apply filter_app].
  unfold _get_indexes. rewrite Hs. apply scan_app_whitespace_idx.
Qed.

Lemma child_view_kinds (x1 x2 : BaseSegment) :
  child_view x1 = child_view x2 ->
  is_select_target x1 = is_select_target x2
  /\ is_select_keyword x1 = is_select_keyword x2
  /\ is_newline x1 = is_newline x2
  /\ is_whitespace x1 = is_whitespace x2.
Proof.
  unfold child_view, is_select_target, is_select_keyword, is_newline,
    is_whitespace, is_type, name_eq.
  intros [= -> ->]. auto.
Qed.

Lemma scan_step_view (st1 st2 : EvalResult) (i : Z) (x1 x2 : BaseSegment) :
  child_view x1 = child_view x2 -> landmarks st1 = landmarks st2 ->
  landmarks (scan_step st1 (i, x1)) = landmarks (scan_step st2 (i, x2)).
Proof.
  intros Hv Hl. destruct (child_view_kinds _ _ Hv) as (Ht & Hk & Hn & Hw).
  unfold landmarks in *.
  rewrite !scan_step_cnt, !scan_step_select_idx, !scan_step_whitespace_idx,
    !scan_step_new_line_idx, !scan_step_target_idx.
  injection Hl as -> -> -> -> ->. now rewrite Ht, Hk, Hn, Hw.
Qed.

Lemma scan_fold_view (l1 l2 : list BaseSegment) (s : nat)
    (st1 st2 : EvalResult) :
  map child_view l1 = map child_view l2 -> landmarks st1 = landmarks st2 ->
  landmarks (fold_left scan_step
               (combine (map Z.of_nat (seq s (length l1))) l1) st1)
  = landmarks (fold_left scan_step
                 (combine (map Z.of_nat (seq s (length l2))) l2) st2).
Proof.
  revert l2 s st1 st2.
  induction l1 as [|x1 l1 IH]; intros [|x2 l2] s st1 st2 Hm Hl;
    try discriminate; [exact Hl|].
  cbn in Hm. injection Hm as Hk Hn Hm.
  cbn [length seq map combine fold_left].
  apply IH; [assumption|].
  apply scan_step_view; [unfold child_view; congruence|assumption].
Qed.

(** X6: the scanner is shallow: the five numeric fields of the summary
    depend only on the kinds and the names of the direct children, not on
    their own children, text or position. *)
Theorem scanner_reads_kinds_and_names_only (c1 c2 : BaseSegment) :
  map child_view (segments c1) = map child_view (segments c2) ->
  landmarks (_get_indexes c1) = landmarks (_get_indexes c2).
Proof.
  intros H. unfold _get_indexes, enumerate. now apply scan_fold_view.
Qed.

(** ** Edits of the child list *)

Lemma filter_middle {A : Type} (P : A -> bool) (a b : list A) (x : A) :
  P x = false -> filter P (a ++ x :: b) = filter P (a ++ b).
Proof. intros Px. rewrite !filter_app. cbn. now rewrite Px. Qed.

Lemma existsb_middle {A : Type} (P : A -> bool) (a b : list A) (x : A) :
  P x = false -> existsb P (a ++ x :: b) = existsb P (a ++ b).
Proof. intros Px. rewrite !existsb_app. cbn. now rewrite Px. Qed.

Lemma insert_before_split {A : Type} (p : nat) (x : A) (l : list A) :
  (p <= length l)%nat ->
  exists a b, l = a ++ b /\ length a = p /\ insert_before p x l = a ++ x :: b.
Proof.
  intros Hp. exists (firstn p l), (skipn p l).
  split; [now rewrite firstn_skipn|].
  split; [now apply firstn_length_le|reflexivity].
Qed.

Lemma insert_before_decompose {A : Type} (p : nat) (x : A) (l : list A) :
  exists a b, l = a ++ b /\ insert_before p x l = a ++ x :: b.
Proof.
  exists (firstn p l), (skipn p l).
  split; [now rewrite firstn_skipn|reflexivity].
Qed.

(** X11: removing a newline child, or inserting a newly made newline node
    at any position, changes neither the list of select targets, nor their
    count, nor the wildcard flag of the clause. *)
Theorem newline_edits_keep_targets (c c' : BaseSegment) :
  (exists n x, nth_error (segments c) n = Some x /\ is_newline x = true
               /\ segments c' = delete_at n (segments c))
  \/ (exists n pm,
        segments c' = insert_before n (make_newline pm) (segments c)) ->
  select_targets (_get_indexes c') = select_targets (_get_indexes c)
  /\ cnt_select_targets (_get_indexes c')
     = cnt_select_targets (_get_indexes c)
  /\ wildcard_scan c' = wildcard_scan c.
Proof.
  intros H.
  assert (G : exists a b x, is_select_target x = false
                /\ segments c = a ++ x :: b /\ segments c' = a ++ b
              \/ is_select_target x = false
                 /\ segments c' = a ++ x :: b /\ segments c = a ++ b).
  { destruct H as [(n & x & Hx & Hnl & Hs)|(n & pm & Hs)].
    - destruct (nth_error_split _ _ Hx) as (a & b & Hl & <-).
      exists a, b, x. left. rewrite Hl in Hs. rewrite delete_at_middle in Hs.
      split; [now apply newline_not_target|]. now split.
    - destruct (insert_before_decompose n (make_newline pm) (segments c))
        as (a & b & Hl & Hi).
      exists a, b, (make_newline pm). right.
      split; [reflexivity|]. split; congruence. }
  rewrite !get_indexes_targets, !get_indexes_cnt, !wildcard_scan_spec.
  unfold wildcard_target.
  destruct G as (a & b & x & [(Px & -> & ->)|(Px & -> & ->)]).
  - rewrite (filter_middle _ a b x Px), existsb_middle; [auto|].
    now rewrite Px.
  - rewrite (filter_middle _ a b x Px), existsb_middle; [auto|].
    now rewrite Px.
Qed.

Lemma shifted_ltb (p : nat) (a b : Z) :
  (shifted p a <? shifted p b) = (a <? b).
Proof.
  unfold shifted.
  destruct (Z.ltb_spec a (Z.of_nat p)), (Z.ltb_spec b (Z.of_nat p)),
    (Z.ltb_spec a b); try lia;
    match goal with
    | |- (?u <? ?v) = true => apply Z.ltb_lt; lia
    | |- (?u <? ?v) = false => apply Z.ltb_ge; lia
    end.
Qed.

Lemma shifted_absent (p : nat) (z : Z) :
  -1 <= z -> (shifted p z =? -1) = (z =? -1).
Proof.
  intros Hz. unfold shifted.
  destruct (Z.ltb_spec z (Z.of_nat p)); [reflexivity|].
  destruct (Z.eqb_spec (z + 1) (-1)), (Z.eqb_spec z (-1)); lia || reflexivity.
Qed.

Lemma first_index_insert_middle {A : Type} (P : A -> bool) (a b : list A)
    (x : A) :
  P x = false ->
  idx_or_absent (first_index P (a ++ x :: b))
  = shifted (length a) (idx_or_absent (first_index P (a ++ b))).
Proof.
  intros Px. rewrite !first_index_app. cbn [first_index]. rewrite Px.
  unfold shifted. destruct (first_index P a) as [q|] eqn:Ea; cbn.
  - apply first_index_lt in Ea.
    destruct (Z.ltb_spec (Z.of_nat q) (Z.of_nat (length a))); lia.
  - destruct (first_index P b) as [w|]; cbn.
    + destruct (Z.ltb_spec (Z.of_nat (length a + w)) (Z.of_nat (length a)));
        lia.
    + destruct (Z.ltb_spec (-1) (Z.of_nat (length a))); lia.
Qed.

Lemma py_getitem_insert_middle {A : Type} (a b : list A) (x y : A)
    (m : nat) :
  nth_error (a ++ b) m = Some y ->
  py_getitem (a ++ x :: b) (shifted (length a) (Z.of_nat m)) = Ok y.
Proof.
  intros Hy. unfold shifted.
  destruct (Z.ltb_spec (Z.of_nat m) (Z.of_nat (length a))) as [Hlt|Hge].
  - apply py_getitem_nth. rewrite nth_error_app1 in * by lia. exact Hy.
  - replace (Z.of_nat m + 1) with (Z.of_nat (S m)) by lia.
    apply py_getitem_nth. rewrite nth_error_app2 in * by lia.
    replace (S m - length a)%nat with (S (m - length a)) by lia. exact Hy.
Qed.

(** X12: a child that is neither a select target, nor a newline, nor a
    SELECT keyword (a whitespace, a comma, a comment) can be inserted at any
    position of a clause without changing the rule's decision: the clause is
    clean before if and only if it is clean after, and a violation keeps the
    same kind of fix on the same node. *)
Theorem non_landmark_child_is_ignored
    (c c' : BaseSegment) (rs rs' : list BaseSegment) (p : nat)
    (x : BaseSegment) :
  is_type c "select_clause" = true ->
  is_type c' "select_clause" = true ->
  segments c' = insert_before p x (segments c) ->
  is_select_target x = false ->
  is_newline x = false ->
  is_select_keyword x = false ->
  (_eval c rs = Ok None <-> _eval c' rs' = Ok None)
  /\ forall r, _eval c rs = Ok (Some r) ->
       exists r', _eval c' rs' = Ok (Some r')
         /\ map edit_type (fixes r') = map edit_type (fixes r)
         /\ map fix_anchor (fixes r') = map fix_anchor (fixes r).
Proof.
  intros Hc Hc' Hs Pt Pn Pk.
  destruct (insert_before_decompose p x (segments c)) as (a & b & Hl & Hi).
  rewrite Hi in Hs. clear Hi.
  assert (Hf : filter is_select_target (segments c')
               = filter is_select_target (segments c))
    by (rewrite Hs, Hl; now apply filter_middle).
  assert (Hw : wildcard_target c' = wildcard_target c).
  { unfold wildcard_target. rewrite Hs, Hl. apply existsb_middle.
    now rewrite Pt. }
  destruct (length (filter is_select_target (segments c)))
    as [|[|k]] eqn:E.
  - rewrite (eval_no_target c rs E).
    rewrite (eval_no_target c' rs') by congruence.
    split; [tauto|discriminate].
  - rewrite (eval_single c rs Hc E).
    rewrite (eval_single c' rs' Hc') by congruence.
    pose proof (single_outcome c) as Ho. pose proof (single_outcome c') as Ho'.
    rewrite Hw in Ho'.
    rewrite !get_indexes_select_idx, !get_indexes_new_line_idx,
      !get_indexes_target_idx in Ho, Ho'.
    rewrite Hs in Ho'.
    rewrite !(first_index_insert_middle _ a b x) in Ho' by assumption.
    rewrite !shifted_ltb in Ho'. rewrite Hl in Ho.
    destruct (wildcard_target c);
      [cbn in Ho, Ho'; rewrite Ho, Ho'; split; [tauto|discriminate]|].
    destruct (_ && _) eqn:T;
      [|cbn in Ho, Ho'; rewrite Ho, Ho'; split; [tauto|discriminate]].
    apply andb_prop in T. destruct T as [T _]. apply Z.ltb_lt in T.
    pose proof (idx_or_absent_lower
                  (first_index is_select_keyword (a ++ b))) as Hk.
    destruct (first_index is_newline (a ++ b)) as [m|] eqn:En;
      cbn [idx_or_absent] in *; [|lia].
    destruct (first_index_nth _ _ _ En) as (y & Hy & _).
    destruct Ho as (nl & Hg & ->). destruct Ho' as (nl' & Hg' & ->).
    rewrite Hl in Hg. rewrite (py_getitem_nth _ _ _ Hy) in Hg.
    rewrite Hs in Hg'. rewrite (py_getitem_insert_middle a b x y m Hy) in Hg'.
    injection Hg as <-. injection Hg' as <-.
    split; [split; discriminate|].
    intros r [= <-]. eexists. split; [reflexivity|]. now cbn.
  - assert (G : (2 <= length (filter is_select_target (segments c)))%nat)
      by lia.
    assert (G' : (2 <= length (filter is_select_target (segments c')))%nat)
      by (rewrite Hf; lia).
    rewrite (eval_multiple c rs Hc G), (eval_multiple c' rs' Hc' G').
    destruct (multiple_outcome c G) as (t & rest & F & Ho).
    destruct (multiple_outcome c' G') as (t' & rest' & F' & Ho').
    rewrite Hf, F in F'. injection F' as <- <-.
    rewrite get_indexes_new_line_idx in Ho, Ho'.
    rewrite Hs, (first_index_insert_middle _ a b x Pn) in Ho'.
    rewrite shifted_absent in Ho' by apply idx_or_absent_lower.
    rewrite Hl in Ho.
    destruct (_ =? -1); cbn in Ho, Ho'; rewrite Ho, Ho'.
    + split; [split; discriminate|].
      intros r [= <-]. eexists. split; [reflexivity|]. now cbn.
    + split; [tauto|discriminate].
Qed.

(** X14: on a clause without newline child, the new newline put before the
    child at [first_select_target_idx] becomes the first newline of the
    rewritten clause and stands directly before its first select target;
    the keyword index moves by one only if the keyword follows that
    position. *)
Theorem inserted_newline_lands_before_first_target
    (c c' : BaseSegment) (t : nat) (pm : PosMarker) :
  (forall x, In x (segments c) -> is_newline x = false) ->
  first_select_target_idx (_get_indexes c) = Z.of_nat t ->
  segments c' = insert_before t (make_newline pm) (segments c) ->
  first_new_line_idx (_get_indexes c') = Z.of_nat t
  /\ first_select_target_idx (_get_indexes c') = Z.of_nat t + 1
  /\ select_idx (_get_indexes c')
     = shifted t (select_idx (_get_indexes c)).
Proof.
  intros Hno Ht Hs.
  rewrite get_indexes_target_idx in Ht. apply idx_or_absent_present in Ht.
  pose proof (first_index_lt _ _ _ Ht) as Hlt.
  destruct (insert_before_split t (make_newline pm) (segments c))
    as (a & b & Hl & Ha & Hi); [lia|].
  rewrite Hi in Hs. clear Hi.
  rewrite !get_indexes_new_line_idx, !get_indexes_target_idx,
    !get_indexes_select_idx, Hs.
  rewrite (first_index_insert_middle is_select_target a b (make_newline pm))
    by reflexivity.
  rewrite (first_index_insert_middle is_select_keyword a b (make_newline pm))
    by reflexivity.
  rewrite <- Hl, Ht, Ha. split; [|split; [|reflexivity]].
  - rewrite first_index_app.
    assert (first_index is_newline a = None) as ->.
    { apply first_index_None. intros y Hy. apply Hno. rewrite Hl.
      apply in_or_app. now left. }
    cbn. rewrite Ha. f_equal. lia.
  - cbn. unfold shifted. destruct (Z.ltb_spec (Z.of_nat t) (Z.of_nat t)); lia.
Qed.

(** ** Rounds of fixing *)

(** One round: the clause is clean and stays as it is, or its first newline
    is removed, or a newline is inserted and the result is clean. *)
Lemma rewrite_once_cases (c : BaseSegment) :
  (_eval c [] = Ok None /\ rewrite_once c = c)
  \/ (exists a x b,
        segments c = a ++ x :: b /\ is_newline x = true
        /\ rewrite_once c = with_segments c (a ++ b))
  \/ _eval (rewrite_once c) [] = Ok None.
Proof.
  unfold rewrite_once.
  destruct (is_type c "select_clause") eqn:Hc;
    [|left; now rewrite (eval_not_clause c [] Hc)].
  destruct (length (filter is_select_target (segments c)))
    as [|[|k]] eqn:E.
  - left. now rewrite (eval_no_target c [] E).
  - rewrite (eval_single c [] Hc E). pose proof (single_outcome c) as Ho.
    destruct (wildcard_target c); [left; now rewrite Ho|].
    destruct (_ && _) eqn:T; [|left; now rewrite Ho].
    apply andb_prop in T. destruct T as [T _]. apply Z.ltb_lt in T.
    destruct (single_delete_node c T) as (m & x & Hm & En & _ & _ & _).
    destruct Ho as (nl & _ & ->). right. left.
    apply first_index_Some in En.
    destruct En as (a & y & b & Hl & <- & Py & _).
    exists a, y, b. split; [assumption|]. split; [assumption|].
    cbn. rewrite Hm, Nat2Z.id, Hl. now rewrite delete_at_middle.
  - assert (G : (2 <= length (filter is_select_target (segments c)))%nat)
      by lia.
    rewrite (eval_multiple c [] Hc G).
    destruct (multiple_outcome c G) as (t & rest & F & Ho).
    destruct (_ =? -1); cbn in Ho; rewrite Ho; [|now left].
    right. right. cbn.
    set (ins := make_newline (advance_by (pos_marker c) (raw c))).
    set (c' := with_segments c _).
    assert (Hc' : is_type c' "select_clause" = true) by exact Hc.
    assert (G' : (2 <= length (filter is_select_target (segments c')))%nat).
    { subst c'. cbn [segments with_segments].
      rewrite filter_insert_before; [assumption|reflexivity]. }
    rewrite (eval_multiple c' [] Hc' G').
    destruct (multiple_outcome c' G') as (t' & rest' & _ & Ho').
    rewrite get_indexes_new_line_idx in Ho'.
    destruct (first_index is_newline (segments c')) as [m|] eqn:En.
    + cbn in Ho'. destruct (Z.eqb_spec (Z.of_nat m) (-1)); [lia|]. exact Ho'.
    + exfalso. pose proof (proj1 (first_index_None _ _) En ins) as Hf.
      subst c'. cbn [segments with_segments] in Hf.
      specialize (Hf (in_insert_before _ _ _)). discriminate.
Qed.

(** X13: rewriting a clause by the fix the rule proposes, round after round,
    reaches a clause the rule leaves alone after at most one round more than
    the clause has newline children: each delete round removes one newline
    and an insert round is final. *)
Theorem fix_rounds_converge (c : BaseSegment) :
  exists k,
    (k <= S (length (filter is_newline (segments c))))%nat
    /\ forall rs, _eval (Nat.iter k rewrite_once c) rs = Ok None.
Proof.
  remember (length (filter is_newline (segments c))) as n eqn:Hn.
  revert c Hn. induction n as [|n IH]; intros c Hn.
  - destruct (rewrite_once_cases c)
      as [[He _]|[(a & x & b & Hl & Px & _)|He]].
    + exists 0%nat. split; [lia|]. intros rs. exact He.
    + rewrite Hl, filter_app in Hn. cbn in Hn. rewrite Px in Hn.
      rewrite length_app in Hn. cbn in Hn. lia.
    + exists 1%nat. split; [lia|]. intros rs. exact He.
  - destruct (rewrite_once_cases c)
      as [[He _]|[(a & x & b & Hl & Px & Hr)|He]].
    + exists 0%nat. split; [lia|]. intros rs. exact He.
    + destruct (IH (rewrite_once c)) as (k & Hk & Hclean).
      { rewrite Hr. cbn [segments with_segments].
        rewrite Hl, filter_app in Hn. cbn in Hn. rewrite Px in Hn.
        rewrite length_app in Hn. cbn in Hn.
        rewrite filter_app, length_app. lia. }
      exists (S k). split; [lia|]. intros rs.
      rewrite Nat.iter_succ_r. apply Hclean.
    + exists 1%nat. split; [lia|]. intros rs. exact He.
Qed.

End L036.

Arguments seg_type {PosMarker} _.
Arguments segments {PosMarker} _.
Arguments pos_marker {PosMarker} _.
Arguments raw {PosMarker} _.
Arguments is_type {PosMarker} seg t.
Arguments is_select_target {PosMarker} seg.
Arguments is_newline {PosMarker} seg.
Arguments wildcard_target {PosMarker} select_clause.
Arguments mkLintFix {PosMarker} _ _ _.
Arguments mkLintResult {PosMarker} _ _.
Arguments make_newline {PosMarker} pm.
Arguments cnt_select_targets {PosMarker} _.
Arguments select_idx {PosMarker} _.
Arguments first_new_line_idx {PosMarker} _.
Arguments first_select_target_idx {PosMarker} _.
Arguments first_whitespace_idx {PosMarker} _.
Arguments select_targets {PosMarker} _.
Arguments _get_indexes {PosMarker} segment.
Arguments _eval {PosMarker} advance_by segment raw_stack.
Arguments NoIssue {PosMarker}.
Arguments DeleteChild {PosMarker} idx.
Arguments InsertNewlineBefore {PosMarker} target.
Arguments outcome_is {PosMarker} advance_by clause o v.
Arguments nl_seg {PosMarker} _.
Arguments target_col {PosMarker} text pm.

(** * The rule on sample clauses, at character offsets *)

Local Notation adv := offset_advance_by.

(** C1: a clause with one select target and no wildcard whose SELECT keyword
    is missing ([select_idx] keeps the absent value) and whose first child is
    a newline standing before the target: the rule deletes that newline,
    although no keyword was recorded. *)
Theorem absent_keyword_newline_deleted :
  length (filter is_select_target (segments (clause_without_keyword Z adv 0)))
  = 1%nat
  /\ wildcard_target (clause_without_keyword Z adv 0) = false
  /\ select_idx (_get_indexes (clause_without_keyword Z adv 0)) = -1
  /\ first_new_line_idx (_get_indexes (clause_without_keyword Z adv 0)) = 0
  /\ first_select_target_idx (_get_indexes (clause_without_keyword Z adv 0)) = 1
  /\ _eval adv (clause_without_keyword Z adv 0) []
     = Ok (Some (mkLintResult (clause_without_keyword Z adv 0)
                   [mkLintFix "delete" (nl_seg 0) None])).
Proof. vm_compute. repeat split. Qed.

(** C2, counterexample: a clause with a blank line between the keyword and
    its lone target has a newline strictly between them; the rule deletes
    the first newline, and the clause rewritten by that deletion is reported
    again instead of being clean. *)
Lemma blank_line_rescan_reports_again :
  is_type (clause_blank_line Z adv 0) "select_clause" = true
  /\ length (filter is_select_target (segments (clause_blank_line Z adv 0)))
     = 1%nat
  /\ wildcard_target (clause_blank_line Z adv 0) = false
  /\ select_idx (_get_indexes (clause_blank_line Z adv 0)) = 0
  /\ first_new_line_idx (_get_indexes (clause_blank_line Z adv 0)) = 1
  /\ first_select_target_idx (_get_indexes (clause_blank_line Z adv 0)) = 3
  /\ _eval adv (clause_blank_line Z adv 0) []
     = Ok (Some (mkLintResult (clause_blank_line Z adv 0)
                   [mkLintFix "delete" (nl_seg 6) None]))
  /\ _eval adv
       (with_segments Z (clause_blank_line Z adv 0)
          (delete_at 1 (segments (clause_blank_line Z adv 0)))) []
     <> Ok None.
Proof. vm_compute. repeat split. discriminate. Qed.

(** C2, amended, on scenario C: one newline between the keyword and the
    target, deleted, and the rewritten clause is clean exactly when no other
    newline follows before the target. *)
Lemma delete_fix_then_rescan_witness :
  exists n nl,
    first_new_line_idx (_get_indexes (scenario_C Z adv 0)) = Z.of_nat n
    /\ nth_error (segments (scenario_C Z adv 0)) n = Some nl
    /\ is_newline nl = true
    /\ _eval adv (scenario_C Z adv 0) []
       = Ok (Some (mkLintResult (scenario_C Z adv 0)
                     [mkLintFix "delete" nl None]))
    /\ forall c' rs',
         is_type c' "select_clause" = true ->
         segments c' = delete_at n (segments (scenario_C Z adv 0)) ->
         (_eval adv c' rs' = Ok None
          <-> forall m y,
                (n < m)%nat ->
                Z.of_nat m
                < first_select_target_idx (_get_indexes (scenario_C Z adv 0)) ->
                nth_error (segments (scenario_C Z adv 0)) m = Some y ->
                is_newline y = false).
Proof.
  apply (delete_fix_then_rescan Z adv (scenario_C Z adv 0) []);
    vm_compute; solve [reflexivity | discriminate].
Defined.

(** C3 on scenario D: two targets on the line of the keyword. *)
Lemma multi_target_insert_iff_no_newline_witness :
  exists t,
    hd_error (filter is_select_target (segments (scenario_D Z adv 0))) = Some t
    /\ (_eval adv (scenario_D Z adv 0) []
        = Ok (Some (mkLintResult (scenario_D Z adv 0)
               [mkLintFix "create" t
                  (Some (make_newline
                           (adv (pos_marker (scenario_D Z adv 0))
                                (raw (scenario_D Z adv 0)))))]))
        <-> forall x, In x (segments (scenario_D Z adv 0)) ->
                      is_newline x = false)
    /\ ((exists x, In x (segments (scenario_D Z adv 0))
                   /\ is_newline x = true) ->
        _eval adv (scenario_D Z adv 0) [] = Ok None).
Proof.
  apply (multi_target_insert_iff_no_newline Z adv (scenario_D Z adv 0) []);
    vm_compute; solve [reflexivity | lia].
Defined.

(** C4 on a lone star, exempt, and on a lone call whose argument is the
    star, not exempt: its newline is deleted. *)
Lemma wildcard_exemption_is_shallow_witness :
  _eval adv (scenario_B Z adv 0) [] = Ok None
  /\ outcome_is adv (clause_count_star Z adv 0)
       (_eval adv (clause_count_star Z adv 0) []) (DeleteChild 1).
Proof.
  split.
  - assert (H := wildcard_exemption_is_shallow Z adv (scenario_B Z adv 0) []).
    vm_compute in H |- *. apply H; reflexivity.
  - assert (H := wildcard_exemption_is_shallow Z adv
                   (clause_count_star Z adv 0) []).
    vm_compute in H |- *. apply H; reflexivity.
Defined.

(** C5 on scenario D: the clause rewritten by the insert is clean. *)
Lemma insert_fix_not_retriggered_witness :
  exists n t,
    first_index is_select_target (segments (scenario_D Z adv 0)) = Some n
    /\ nth_error (segments (scenario_D Z adv 0)) n = Some t
    /\ _eval adv (scenario_D Z adv 0) []
       = Ok (Some (mkLintResult (scenario_D Z adv 0)
              [mkLintFix "create" t
                 (Some (make_newline
                          (adv (pos_marker (scenario_D Z adv 0))
                               (raw (scenario_D Z adv 0)))))]))
    /\ forall c' rs',
         is_type c' "select_clause" = true ->
         segments c'
         = insert_before n
             (make_newline (adv (pos_marker (scenario_D Z adv 0))
                                (raw (scenario_D Z adv 0))))
             (segments (scenario_D Z adv 0)) ->
         _eval adv c' rs' = Ok None.
Proof.
  apply (insert_fix_not_retriggered Z adv (scenario_D Z adv 0) []).
  - vm_compute. reflexivity.
  - vm_compute. lia.
  - intros x Hx. cbn in Hx.
    repeat (destruct Hx as [<-|Hx]; [vm_compute; reflexivity|]). destruct Hx.
Defined.

(** C7 on a clause that holds the keyword and a whitespace only. *)
Lemma no_target_no_issue_witness :
  _eval adv (clause_no_target Z adv 0) [] = Ok None.
Proof.
  apply (no_target_no_issue Z adv (clause_no_target Z adv 0) []).
  intros x Hx. cbn in Hx.
  repeat (destruct Hx as [<-|Hx]; [vm_compute; reflexivity|]). destruct Hx.
Defined.

(** C8 on scenario D: the clause spans the offsets 0 to 10 and its first
    target starts at offset 7; the new newline is placed at offset 10. *)
Lemma inserted_newline_position_witness :
  exists t ins,
    hd_error (filter is_select_target (segments (scenario_D Z adv 0))) = Some t
    /\ [mkLintFix "create" (target_col "a" 7) (Some (make_newline 10))]
       = [mkLintFix "create" t (Some ins)]
    /\ pos_marker ins
       = adv (pos_marker (scenario_D Z adv 0)) (raw (scenario_D Z adv 0))
    /\ (pos_marker t
        <> adv (pos_marker (scenario_D Z adv 0)) (raw (scenario_D Z adv 0)) ->
        pos_marker ins <> pos_marker t).
Proof.
  apply (inserted_newline_position Z adv (scenario_D Z adv 0) []
           (mkLintResult (scenario_D Z adv 0)
              [mkLintFix "create" (target_col "a" 7)
                 (Some (make_newline 10))])).
  - vm_compute. lia.
  - vm_compute. reflexivity.
Defined.

(** C9 on two clauses that differ by one child, a whitespace in one and a
    comma in the other: the summaries differ in [first_whitespace_idx]
    only. *)
Lemma whitespace_index_irrelevant_witness :
  first_whitespace_idx (_get_indexes (clause_indented Z adv 0)) = 2
  /\ first_whitespace_idx (_get_indexes (clause_comma Z adv 0)) = -1
  /\ exists v,
       outcome_is adv (clause_indented Z adv 0)
         (_eval adv (clause_indented Z adv 0) []) v
       /\ outcome_is adv (clause_comma Z adv 0)
            (_eval adv (clause_comma Z adv 0) []) v.
Proof.
  split; [vm_compute; reflexivity|]. split; [vm_compute; reflexivity|].
  apply (whitespace_index_irrelevant Z adv
           (clause_indented Z adv 0) (clause_comma Z adv 0) [] []);
    vm_compute; repeat split.
Defined.

(** C10 on scenario C: the node of the delete fix is the child at index 1,
    a newline. *)
Lemma fixes_reference_valid_nodes_witness :
  (edit_type Z (mkLintFix "delete" (nl_seg 6) None) = "delete"
   /\ exists n,
        first_new_line_idx (_get_indexes (scenario_C Z adv 0)) = Z.of_nat n
        /\ (n < length (segments (scenario_C Z adv 0%Z)))%nat
        /\ nth_error (segments (scenario_C Z adv 0)) n
           = Some (fix_anchor Z (mkLintFix "delete" (nl_seg 6) None))
        /\ is_newline (fix_anchor Z (mkLintFix "delete" (nl_seg 6) None))
           = true)
  \/ (edit_type Z (mkLintFix "delete" (nl_seg 6) None) = "create"
      /\ select_targets (_get_indexes (scenario_C Z adv 0)) <> []
      /\ hd_error (select_targets (_get_indexes (scenario_C Z adv 0)))
         = Some (fix_anchor Z (mkLintFix "delete" (nl_seg 6) None))).
Proof.
  apply (proj2 (fixes_reference_valid_nodes Z adv (scenario_C Z adv 0) [])
           (mkLintResult (scenario_C Z adv 0)
              [mkLintFix "delete" (nl_seg 6) None])).
  - vm_compute. reflexivity.
  - left. reflexivity.
Defined.

(** The five scenarios of the specification: A, B and E are left alone, the
    newline of C is deleted, and a newline is created before the first target
    of D, at the end offset of the clause. *)
Example scenarios_of_the_specification :
  _eval adv (scenario_A Z adv 0) [] = Ok None
  /\ _eval adv (scenario_B Z adv 0) [] = Ok None
  /\ _eval adv (scenario_C Z adv 0) []
     = Ok (Some (mkLintResult (scenario_C Z adv 0)
                   [mkLintFix "delete" (nl_seg 6) None]))
  /\ _eval adv (scenario_D Z adv 0) []
     = Ok (Some (mkLintResult (scenario_D Z adv 0)
                   [mkLintFix "create" (target_col "a" 7)
                      (Some (make_newline 10))]))
  /\ _eval adv (scenario_E Z adv 0) [] = Ok None.
Proof. vm_compute. repeat split. Qed.

(** * Further properties on sample clauses *)

(** X2 on scenario D: the first listed target is the child at index 2. *)
Lemma first_target_is_indexed_child_witness :
  exists t,
    py_getitem (select_targets (_get_indexes (scenario_D Z adv 0))) 0 = Ok t
    /\ py_getitem (segments (scenario_D Z adv 0))
         (first_select_target_idx (_get_indexes (scenario_D Z adv 0)))
       = Ok t
    /\ is_select_target t = true.
Proof.
  apply (first_target_is_indexed_child Z (scenario_D Z adv 0)).
  vm_compute. reflexivity.
Defined.

(** X4 on a clause with an indented target: newline at 1, whitespace
    at 2. *)
Lemma whitespace_recorded_after_newline_witness :
  0 <= first_new_line_idx (_get_indexes (clause_indented Z adv 0))
  /\ first_new_line_idx (_get_indexes (clause_indented Z adv 0))
     < first_whitespace_idx (_get_indexes (clause_indented Z adv 0)).
Proof.
  apply (whitespace_recorded_after_newline Z (clause_indented Z adv 0)).
  vm_compute. discriminate.
Defined.

(** X5 on scenario C extended to scenario E by three more children. *)
Lemma first_occurrence_wins_witness :
  select_idx (_get_indexes (scenario_E Z adv 0)) = 0
  /\ first_new_line_idx (_get_indexes (scenario_E Z adv 0)) = 1
  /\ first_select_target_idx (_get_indexes (scenario_E Z adv 0)) = 2.
Proof.
  destruct (first_occurrence_wins Z (scenario_C Z adv 0) (scenario_E Z adv 0)
              (skipn 3 (segments (scenario_E Z adv 0))))
    as (Hk & Hn & Ht & _).
  - vm_compute. reflexivity.
  - rewrite Hk, Hn, Ht; vm_compute; repeat split; discriminate.
Defined.

(** X6 on scenarios C and B: the targets differ below, the children have the
    same kinds and names. *)
Lemma scanner_reads_kinds_and_names_only_witness :
  landmarks Z (_get_indexes (scenario_C Z adv 0))
  = landmarks Z (_get_indexes (scenario_B Z adv 0)).
Proof.
  apply (scanner_reads_kinds_and_names_only Z).
  vm_compute. reflexivity.
Defined.

(** X8 on scenario D. *)
Lemma violation_shape_witness :
  is_type (scenario_D Z adv 0) "select_clause" = true
  /\ anchor Z (mkLintResult (scenario_D Z adv 0)
                 [mkLintFix "create" (target_col "a" 7)
                    (Some (make_newline 10))])
     = scenario_D Z adv 0.
Proof.
  destruct (violation_shape Z adv (scenario_D Z adv 0) []
              (mkLintResult (scenario_D Z adv 0)
                 [mkLintFix "create" (target_col "a" 7)
                    (Some (make_newline 10))]))
    as (Hc & Ha & _).
  - vm_compute. reflexivity.
  - split; assumption.
Defined.

(** X9 on a lone target followed by a newline. *)
Lemma lone_target_without_leading_newline_witness :
  _eval adv (clause_trailing_newline Z adv 0) [] = Ok None.
Proof.
  apply (lone_target_without_leading_newline Z adv
           (clause_trailing_newline Z adv 0) []).
  - vm_compute. reflexivity.
  - assert (Ht : first_select_target_idx
                   (_get_indexes (clause_trailing_newline Z adv 0)) = 2)
      by (vm_compute; reflexivity).
    rewrite Ht. intros m y Hm Hy.
    destruct m as [|[|m]]; [| |lia]; vm_compute in Hy;
      injection Hy as <-; vm_compute; reflexivity.
Defined.

(** X10 on scenario C: the deleted newline is the child at index 1, the
    target the child at index 2. *)
Lemma deleted_newline_is_first_and_before_target_witness :
  exists n t tg,
    nth_error (segments (scenario_C Z adv 0)) n
    = Some (fix_anchor Z (mkLintFix "delete" (nl_seg 6) None))
    /\ (forall m y, (m < n)%nat ->
          nth_error (segments (scenario_C Z adv 0%Z)) m = Some y ->
          is_newline y = false)
    /\ nth_error (segments (scenario_C Z adv 0)) t = Some tg
    /\ is_select_target tg = true
    /\ (n < t)%nat
    /\ select_idx (_get_indexes (scenario_C Z adv 0)) < Z.of_nat n.
Proof.
  apply (deleted_newline_is_first_and_before_target Z adv
           (scenario_C Z adv 0) []
           (mkLintResult (scenario_C Z adv 0)
              [mkLintFix "delete" (nl_seg 6) None])).
  - vm_compute. reflexivity.
  - left. reflexivity.
  - reflexivity.
Defined.

(** X11 on scenario C without its newline. *)
Lemma newline_edits_keep_targets_witness :
  select_targets
    (_get_indexes (with_segments Z (scenario_C Z adv 0)
                     (delete_at 1 (segments (scenario_C Z adv 0)))))
  = select_targets (_get_indexes (scenario_C Z adv 0))
  /\ cnt_select_targets
       (_get_indexes (with_segments Z (scenario_C Z adv 0)
                        (delete_at 1 (segments (scenario_C Z adv 0)))))
     = cnt_select_targets (_get_indexes (scenario_C Z adv 0))
  /\ wildcard_scan Z (with_segments Z (scenario_C Z adv 0)
                        (delete_at 1 (segments (scenario_C Z adv 0))))
     = wildcard_scan Z (scenario_C Z adv 0).
Proof.
  apply (newline_edits_keep_targets Z).
  left. exists 1%nat, (nl_seg 6). vm_compute. repeat split.
Defined.

(** X12 on scenario C with a whitespace put before the target. *)
Lemma non_landmark_child_is_ignored_witness :
  exists r',
    _eval adv (with_segments Z (scenario_C Z adv 0)
                 (insert_before 2 (ws_seg Z 7)
                    (segments (scenario_C Z adv 0)))) []
    = Ok (Some r')
    /\ map (edit_type Z) (fixes Z r') = ["delete"]
    /\ map (fix_anchor Z) (fixes Z r') = [nl_seg 6].
Proof.
  apply (proj2 (non_landmark_child_is_ignored Z adv (scenario_C Z adv 0)
                  (with_segments Z (scenario_C Z adv 0)
                     (insert_before 2 (ws_seg Z 7)
                        (segments (scenario_C Z adv 0))))
                  [] [] 2 (ws_seg Z 7)
                  eq_refl eq_refl eq_refl eq_refl eq_refl eq_refl)
           (mkLintResult (scenario_C Z adv 0)
              [mkLintFix "delete" (nl_seg 6) None])).
  vm_compute. reflexivity.
Defined.

(** X14 on scenario D: the new newline takes index 2, the first target
    moves to index 3 and the keyword stays at index 0. *)
Lemma inserted_newline_lands_before_first_target_witness :
  first_new_line_idx
    (_get_indexes (with_segments Z (scenario_D Z adv 0)
                     (insert_before 2 (make_newline 10)
                        (segments (scenario_D Z adv 0)))))
  = Z.of_nat 2
  /\ first_select_target_idx
       (_get_indexes (with_segments Z (scenario_D Z adv 0)
                        (insert_before 2 (make_newline 10)
                           (segments (scenario_D Z adv 0)))))
     = Z.of_nat 2 + 1
  /\ select_idx
       (_get_indexes (with_segments Z (scenario_D Z adv 0)
                        (insert_before 2 (make_newline 10)
                           (segments (scenario_D Z adv 0)))))
     = shifted 2 (select_idx (_get_indexes (scenario_D Z adv 0))).
Proof.
  apply (inserted_newline_lands_before_first_target Z (scenario_D Z adv 0)
           _ 2%nat 10).
  - intros x Hx. cbn in Hx.
    repeat (destruct Hx as [<-|Hx]; [vm_compute; reflexivity|]). destruct Hx.
  - vm_compute. reflexivity.
  - reflexivity.
Defined.

(** X15 on scenario C: the index test passes and the newline at index 1 is
    deleted. *)
Lemma single_target_decision_witness :
  exists n nl,
    first_new_line_idx (_get_indexes (scenario_C Z adv 0)) = Z.of_nat n
    /\ nth_error (segments (scenario_C Z adv 0)) n = Some nl
    /\ is_newline nl = true
    /\ _eval adv (scenario_C Z adv 0) []
       = Ok (Some (mkLintResult (scenario_C Z adv 0)
                     [mkLintFix "delete" nl None])).
Proof.
  refine (proj1 (single_target_decision Z adv (scenario_C Z adv 0) []
                   _ _ _) _);
    vm_compute; try reflexivity.
  split; reflexivity.
Defined.
